(** * The network fetch pipeline of the Aluminum browser

    A shallow embedding of [NetworkManager] (the Zig front end's network
    layer) and of the structs declared next to it: [NetworkConfig],
    [FetchOptions], [PendingRequest], [Connection], [ConnectionPool],
    [Response] and [SpeedTestResult].

    The manager mutates [self] and returns Zig error unions ([!T]).  It is
    modelled here by a state-and-error monad over the manager record.  The
    record carries one ghost field, [trace], the chronological list of the
    calls the manager made on its collaborators. *)

From Stdlib Require Import ZArith List String Bool Arith Lia.
Import ListNotations.

Set Implicit Arguments.

(** ** Error unions *)

(** Zig's [anyerror]: an error is known by its name. *)
Definition anyerror := string.

(** The error union [!A]. *)
Inductive result (A : Type) : Type :=
| Ok (a : A)
| Err (e : anyerror).

Arguments Ok {A} a.
Arguments Err {A} e.

Definition is_ok {A} (r : result A) : bool :=
  match r with Ok _ => true | Err _ => false end.

(** ** Plain data declared in the source *)

(** [FetchOptions]: the three flags, all defaulting to [true]. *)
Record FetchOptions := {
  use_cache : bool;
  cache_response : bool;
  use_ssl : bool
}.

Definition default_options : FetchOptions :=
  {| use_cache := true; cache_response := true; use_ssl := true |}.

(** [PendingRequest]: a queued url with its options. *)
Record PendingRequest := {
  url : string;
  options : FetchOptions
}.

(** [SpeedTestResult]: speeds are [u64] bits per second, latency is [u32]
    milliseconds. *)
Record SpeedTestResult := {
  download_speed : Z;
  upload_speed : Z;
  latency : Z
}.

(** [Connection] is an empty struct; the pool hands out a pointer to one.
    The only pointer the pool ever returns is [undefined]. *)
Inductive ConnectionPtr : Type := undefined.

(** ** The connection pool, as the source has it *)

Module ConnectionPool.

(** The struct declares no field. *)
Inductive t : Type := Empty.

Definition init (max_connections : Z) : result t := Ok Empty.

Definition deinit (self : t) : t := self.

(** [acquire] ignores its three arguments and returns at once. *)
Definition acquire (self : t) (ip : string) (use_ssl : bool)
  : result ConnectionPtr * t :=
  (Ok undefined, self).

Definition release (self : t) (conn : ConnectionPtr) : t := self.

Definition setMaxConnections (self : t) (max_connections : Z)
  : result unit * t :=
  (Ok tt, self).

Definition activeConnections (self : t) : Z := 0%Z.

End ConnectionPool.

(** ** Collaborators

    [http], [ssl], [dns] and [cache] are imported packages, and three private
    helpers of the manager have their bodies left out of the source
    ("Implementation omitted for brevity").  Everything below is stated for
    an arbitrary implementation of them. *)

Class Collaborators : Type := {
  HttpClient : Type;
  SslContext : Type;
  DnsResolver : Type;
  CacheManager : Type;
  (** [cache.ExpirationPolicy] *)
  ExpirationPolicy : Type;
  (** [http.Request] *)
  Request : Type;
  (** the fields of [Response] that the source leaves out *)
  ResponseFields : Type;
}.

Section Manager.

Context {X : Collaborators}.

(** [Response]: the elided fields and [is_cacheable]. *)
Record Response := {
  response_fields : ResponseFields;
  is_cacheable : bool
}.

(** [NetworkConfig], field for field. *)
Record NetworkConfig := {
  max_connections_per_host : Z;
  max_total_connections : Z;
  request_timeout : Z;
  dns_servers : list string;
  dns_cache_size : Z;
  cache_max_size : Z;
  cache_expiration_policy : ExpirationPolicy;
  ca_bundle_path : string;
  max_retries : Z;
  network_monitor_interval : Z
}.

(** The anonymous option structs handed to the components. *)
Record HttpOptions := {
  http_max_connections_per_host : Z;
  http_timeout : Z
}.

Record DnsOptions := {
  dns_nameservers : list string;
  dns_opt_cache_size : Z
}.

Record CacheOptions := {
  cache_opt_max_size : Z;
  cache_opt_expiration_policy : ExpirationPolicy
}.

(** What the imported packages and the omitted helper bodies do.  A component
    method takes the component and gives back its result with the component
    as the call left it. *)
Record Behaviour := {
  cache_get : string -> CacheManager -> result (option Response) * CacheManager;
  cache_set : string -> Response -> CacheManager -> result unit * CacheManager;
  cache_updateConfig : CacheOptions -> CacheManager -> result unit * CacheManager;
  dns_resolve : string -> DnsResolver -> result string * DnsResolver;
  dns_updateConfig : DnsOptions -> DnsResolver -> result unit * DnsResolver;
  http_updateConfig : HttpOptions -> HttpClient -> result unit * HttpClient;
  (** bodies omitted in the source *)
  extractHost_body : string -> result string;
  prepareRequest_body : string -> FetchOptions -> result Request;
  sendRequest_body : ConnectionPtr -> Request -> HttpClient -> result Response * HttpClient
}.

(** ** The manager and its trace *)

Inductive Event : Type :=
| EvFetch (url : string) (options : FetchOptions)
| EvCacheGet (url : string)
| EvCacheSet (url : string) (response : Response)
| EvResolve (host : string)
| EvAcquire (ip : string) (use_ssl : bool)
| EvRelease (conn : ConnectionPtr)
| EvSend (conn : ConnectionPtr) (request : Request)
| EvSleep (ns : Z)
| EvHttpUpdateConfig (o : HttpOptions)
| EvDnsUpdateConfig (o : DnsOptions)
| EvCacheUpdateConfig (o : CacheOptions)
| EvSetMaxConnections (n : Z).

Record NetworkManager := {
  http_client : HttpClient;
  ssl_context : SslContext;
  dns_resolver : DnsResolver;
  cache_manager : CacheManager;
  connection_pool : ConnectionPool.t;
  request_queue : list PendingRequest;
  config : NetworkConfig;
  trace : list Event
}.

Definition with_http_client (h : HttpClient) (s : NetworkManager) :=
  {| http_client := h; ssl_context := ssl_context s;
     dns_resolver := dns_resolver s; cache_manager := cache_manager s;
     connection_pool := connection_pool s; request_queue := request_queue s;
     config := config s; trace := trace s |}.

Definition with_dns_resolver (d : DnsResolver) (s : NetworkManager) :=
  {| http_client := http_client s; ssl_context := ssl_context s;
     dns_resolver := d; cache_manager := cache_manager s;
     connection_pool := connection_pool s; request_queue := request_queue s;
     config := config s; trace := trace s |}.

Definition with_cache_manager (c : CacheManager) (s : NetworkManager) :=
  {| http_client := http_client s; ssl_context := ssl_context s;
     dns_resolver := dns_resolver s; cache_manager := c;
     connection_pool := connection_pool s; request_queue := request_queue s;
     config := config s; trace := trace s |}.

Definition with_connection_pool (p : ConnectionPool.t) (s : NetworkManager) :=
  {| http_client := http_client s; ssl_context := ssl_context s;
     dns_resolver := dns_resolver s; cache_manager := cache_manager s;
     connection_pool := p; request_queue := request_queue s;
     config := config s; trace := trace s |}.

Definition with_request_queue (q : list PendingRequest) (s : NetworkManager) :=
  {| http_client := http_client s; ssl_context := ssl_context s;
     dns_resolver := dns_resolver s; cache_manager := cache_manager s;
     connection_pool := connection_pool s; request_queue := q;
     config := config s; trace := trace s |}.

Definition with_config (c : NetworkConfig) (s : NetworkManager) :=
  {| http_client := http_client s; ssl_context := ssl_context s;
     dns_resolver := dns_resolver s; cache_manager := cache_manager s;
     connection_pool := connection_pool s; request_queue := request_queue s;
     config := c; trace := trace s |}.

Definition with_trace (t : list Event) (s : NetworkManager) :=
  {| http_client := http_client s; ssl_context := ssl_context s;
     dns_resolver := dns_resolver s; cache_manager := cache_manager s;
     connection_pool := connection_pool s; request_queue := request_queue s;
     config := config s; trace := t |}.

(** ** The monad of manager methods *)

Definition M (A : Type) : Type := NetworkManager -> result A * NetworkManager.

Definition ret {A} (a : A) : M A := fun s => (Ok a, s).

(** [try]: an error ends the method at once, with [self] as it is. *)
Definition bind {A B} (m : M A) (k : A -> M B) : M B :=
  fun s =>
    match m s with
    | (Ok a, s') => k a s'
    | (Err e, s') => (Err e, s')
    end.

(** [defer]: the deferred call runs when the rest of the scope is left,
    whether it returned a value or an error. *)
Definition defer {A} (cleanup : NetworkManager -> NetworkManager) (body : M A) : M A :=
  fun s => let (r, s') := body s in (r, cleanup s').

Definition emit (e : Event) : M unit :=
  fun s => (Ok tt, with_trace (trace s ++ [e]) s).

End Manager.

Notation "x <- c1 ;; c2" := (bind c1 (fun x => c2))
  (at level 61, c1 at next level, right associativity).
Notation "c1 ;; c2" := (bind c1 (fun _ => c2))
  (at level 61, right associativity).

(** ** The methods of [NetworkManager] *)

(** [ArrayList.popOrNull]: takes the last item off, if there is one. *)
Definition popOrNull {A} (l : list A) : option A * list A :=
  match rev l with
  | [] => (None, l)
  | x :: r => (Some x, rev r)
  end.

(** What running a loop gives: the method returned, or a checked integer
    overflow stopped the program, or the model's fuel ran out. *)
Inductive run {S A : Type} : Type :=
| Returned (r : result A) (s : S)
| IntegerOverflow
| OutOfFuel.

Arguments run : clear implicits.

(** [std.time.ns_per_ms] *)
Definition ns_per_ms : Z := 1000000.

Definition u64_max : Z := 2 ^ 64 - 1.

(** [std.math.pow(u64, x, y)]: the power, when it fits in 64 bits. *)
Definition pow_u64 (x y : Z) : option Z :=
  let p := (x ^ y)%Z in
  if (p <=? u64_max)%Z then Some p else None.

(** Checked [u64] multiplication. *)
Definition mul_u64 (a b : Z) : option Z :=
  let p := (a * b)%Z in
  if (p <=? u64_max)%Z then Some p else None.

Section Methods.

Context {X : Collaborators}.
Variable B : Behaviour.

(** *** Calls on the components *)

Definition cache_manager_get (url : string) : M (option Response) :=
  emit (EvCacheGet url) ;;
  fun s => let (r, c) := cache_get B url (cache_manager s) in
           (r, with_cache_manager c s).

Definition cache_manager_set (url : string) (response : Response) : M unit :=
  emit (EvCacheSet url response) ;;
  fun s => let (r, c) := cache_set B url response (cache_manager s) in
           (r, with_cache_manager c s).

Definition cache_manager_updateConfig (o : CacheOptions) : M unit :=
  emit (EvCacheUpdateConfig o) ;;
  fun s => let (r, c) := cache_updateConfig B o (cache_manager s) in
           (r, with_cache_manager c s).

Definition dns_resolver_resolve (host : string) : M string :=
  emit (EvResolve host) ;;
  fun s => let (r, d) := dns_resolve B host (dns_resolver s) in
           (r, with_dns_resolver d s).

Definition dns_resolver_updateConfig (o : DnsOptions) : M unit :=
  emit (EvDnsUpdateConfig o) ;;
  fun s => let (r, d) := dns_updateConfig B o (dns_resolver s) in
           (r, with_dns_resolver d s).

Definition http_client_updateConfig (o : HttpOptions) : M unit :=
  emit (EvHttpUpdateConfig o) ;;
  fun s => let (r, h) := http_updateConfig B o (http_client s) in
           (r, with_http_client h s).

Definition connection_pool_acquire (ip : string) (use_ssl : bool) : M ConnectionPtr :=
  emit (EvAcquire ip use_ssl) ;;
  fun s => let (r, p) := ConnectionPool.acquire (connection_pool s) ip use_ssl in
           (r, with_connection_pool p s).

Definition connection_pool_release (conn : ConnectionPtr) (s : NetworkManager)
  : NetworkManager :=
  with_connection_pool (ConnectionPool.release (connection_pool s) conn)
    (with_trace (trace s ++ [EvRelease conn]) s).

Definition connection_pool_setMaxConnections (n : Z) : M unit :=
  emit (EvSetMaxConnections n) ;;
  fun s => let (r, p) := ConnectionPool.setMaxConnections (connection_pool s) n in
           (r, with_connection_pool p s).

(** *** The private helpers *)

Definition extractHost (url : string) : M string :=
  fun s => (extractHost_body B url, s).

Definition prepareRequest (url : string) (options : FetchOptions) : M Request :=
  fun s => (prepareRequest_body B url options, s).

Definition sendRequest (conn : ConnectionPtr) (request : Request) : M Response :=
  emit (EvSend conn request) ;;
  fun s => let (r, h) := sendRequest_body B conn request (http_client s) in
           (r, with_http_client h s).

(** *** [fetch] *)

Definition fetch (url : string) (options : FetchOptions) : M Response :=
  emit (EvFetch url options) ;;
  (* Check cache first *)
  hit <- (if use_cache options then cache_manager_get url else ret None) ;;
  match hit with
  | Some cached_response => ret cached_response
  | None =>
      (* Resolve DNS *)
      host <- extractHost url ;;
      ip <- dns_resolver_resolve host ;;
      (* Get a connection from the pool *)
      conn <- connection_pool_acquire ip (use_ssl options) ;;
      defer (connection_pool_release conn)
        ((* Prepare the request *)
         request <- prepareRequest url options ;;
         (* Send the request *)
         response <- sendRequest conn request ;;
         (* Cache the response if appropriate *)
         (if cache_response options && is_cacheable response
          then cache_manager_set url response
          else ret tt) ;;
         ret response)
  end.

(** *** The request queue *)

(** [queueRequest] on the path where its two allocations succeed: it
    appends at the end of the list.  The two error paths of the source
    ([try] on [allocator.dupe] and on [append]), on which nothing is queued
    and the error is returned, are not modelled. *)
Definition queueRequest (url : string) (options : FetchOptions) : M unit :=
  fun s => (Ok tt,
            with_request_queue
              (request_queue s ++ [Build_PendingRequest url options]) s).

(** The [while] loop of [processQueue], one iteration per unit of fuel. *)
Fixpoint processQueue_loop (fuel : nat) (s : NetworkManager)
  : run NetworkManager unit :=
  match fuel with
  | O => OutOfFuel
  | S fuel' =>
      match popOrNull (request_queue s) with
      | (None, _) => Returned (Ok tt) s
      | (Some pending_request, rest) =>
          match fetch (url pending_request) (options pending_request)
                  (with_request_queue rest s) with
          | (Ok _, s') => processQueue_loop fuel' s'
          | (Err e, s') => Returned (Err e) s'
          end
      end
  end.

Definition processQueue (s : NetworkManager) : run NetworkManager unit :=
  processQueue_loop (S (List.length (request_queue s))) s.

(** *** Configuration *)

Definition updateConfig (new_config : NetworkConfig) : M unit :=
  (fun s => (Ok tt, with_config new_config s)) ;;
  http_client_updateConfig
    {| http_max_connections_per_host := max_connections_per_host new_config;
       http_timeout := request_timeout new_config |} ;;
  dns_resolver_updateConfig
    {| dns_nameservers := dns_servers new_config;
       dns_opt_cache_size := dns_cache_size new_config |} ;;
  cache_manager_updateConfig
    {| cache_opt_max_size := cache_max_size new_config;
       cache_opt_expiration_policy := cache_expiration_policy new_config |} ;;
  connection_pool_setMaxConnections (max_total_connections new_config).

Definition with_max_connections_per_host (n : Z) (c : NetworkConfig) :=
  {| max_connections_per_host := n;
     max_total_connections := max_total_connections c;
     request_timeout := request_timeout c;
     dns_servers := dns_servers c;
     dns_cache_size := dns_cache_size c;
     cache_max_size := cache_max_size c;
     cache_expiration_policy := cache_expiration_policy c;
     ca_bundle_path := ca_bundle_path c;
     max_retries := max_retries c;
     network_monitor_interval := network_monitor_interval c |}.

Definition with_request_timeout (n : Z) (c : NetworkConfig) :=
  {| max_connections_per_host := max_connections_per_host c;
     max_total_connections := max_total_connections c;
     request_timeout := n;
     dns_servers := dns_servers c;
     dns_cache_size := dns_cache_size c;
     cache_max_size := cache_max_size c;
     cache_expiration_policy := cache_expiration_policy c;
     ca_bundle_path := ca_bundle_path c;
     max_retries := max_retries c;
     network_monitor_interval := network_monitor_interval c |}.

(** The config that [adjustSettingsBasedOnNetworkConditions] builds from
    [self.config] before it pushes it. *)
Definition adjusted_config (c : NetworkConfig) (speed_test_result : SpeedTestResult)
  : NetworkConfig :=
  let new_config := c in
  if (download_speed speed_test_result <? 1000000)%Z then
    with_request_timeout 30000 (with_max_connections_per_host 2 new_config)
  else if (download_speed speed_test_result <? 10000000)%Z then
    with_request_timeout 15000 (with_max_connections_per_host 4 new_config)
  else
    with_request_timeout 10000 (with_max_connections_per_host 6 new_config).

Definition adjustSettingsBasedOnNetworkConditions
  (speed_test_result : SpeedTestResult) : M unit :=
  fun s => updateConfig (adjusted_config (config s) speed_test_result) s.

(** *** Retrying *)

Definition handleNetworkError (err : anyerror) (retry_count : Z)
  (s : NetworkManager) : run NetworkManager unit :=
  if (max_retries (config s) <=? retry_count)%Z then
    Returned (Err err) s
  else
    match pow_u64 2 retry_count with
    | None => IntegerOverflow
    | Some p =>
        match mul_u64 ns_per_ms p with
        | None => IntegerOverflow
        | Some backoff_time =>
            Returned (Ok tt) (with_trace (trace s ++ [EvSleep backoff_time]) s)
        end
    end.






(** *** What [updateConfig] hands to the components *)

Definition http_options_of (c : NetworkConfig) : HttpOptions :=
  {| http_max_connections_per_host := max_connections_per_host c;
     http_timeout := request_timeout c |}.

Definition dns_options_of (c : NetworkConfig) : DnsOptions :=
  {| dns_nameservers := dns_servers c;
     dns_opt_cache_size := dns_cache_size c |}.

Definition cache_options_of (c : NetworkConfig) : CacheOptions :=
  {| cache_opt_max_size := cache_max_size c;
     cache_opt_expiration_policy := cache_expiration_policy c |}.

(** The four calls of a complete update, in the order of the source. *)
Definition pushes (c : NetworkConfig) : list Event :=
  [EvHttpUpdateConfig (http_options_of c);
   EvDnsUpdateConfig (dns_options_of c);
   EvCacheUpdateConfig (cache_options_of c);
   EvSetMaxConnections (max_total_connections c)].


(** *** Reading the trace *)

(** The events a method added to the trace. *)
Definition since (s s' : NetworkManager) : list Event :=
  skipn (List.length (trace s)) (trace s').

Definition is_resolve (e : Event) : bool :=
  match e with EvResolve _ => true | _ => false end.

Definition is_acquire (e : Event) : bool :=
  match e with EvAcquire _ _ => true | _ => false end.

Definition is_release (e : Event) : bool :=
  match e with EvRelease _ => true | _ => false end.

Definition is_send (e : Event) : bool :=
  match e with EvSend _ _ => true | _ => false end.

Definition is_cache_set (e : Event) : bool :=
  match e with EvCacheSet _ _ => true | _ => false end.

Definition count (p : Event -> bool) (d : list Event) : nat :=
  List.length (filter p d).

(** The calls of [fetch] in a piece of trace, in the order they were made. *)
Fixpoint fetched (d : list Event) : list PendingRequest :=
  match d with
  | [] => []
  | EvFetch u o :: d' => Build_PendingRequest u o :: fetched d'
  | _ :: d' => fetched d'
  end.

End Methods.

(** ** Clients of the connection pool *)

(** A call a client makes on the pool.  A release names the destination its
    handle was acquired for. *)
Inductive PoolCall : Type :=
| CallAcquire (ip : string) (use_ssl : bool)
| CallRelease (ip : string) (use_ssl : bool) (conn : ConnectionPtr).

Definition destination : Type := (string * bool)%type.

Definition destination_eqb (a b : destination) : bool :=
  String.eqb (fst a) (fst b) && Bool.eqb (snd a) (snd b).

Fixpoint remove_one (d : destination) (l : list destination) : list destination :=
  match l with
  | [] => []
  | x :: l' => if destination_eqb d x then l' else x :: remove_one d l'
  end.

(** Runs the calls in order.  Gives the answers of the [acquire] calls, the
    pool, and the ledger of busy connections: the destinations of the handles
    that were handed out and not yet given back. *)
Fixpoint pool_run (calls : list PoolCall) (self : ConnectionPool.t)
  (busy : list destination)
  : list (result ConnectionPtr) * ConnectionPool.t * list destination :=
  match calls with
  | [] => ([], self, busy)
  | CallAcquire ip ssl :: rest =>
      let (r, self') := ConnectionPool.acquire self ip ssl in
      let busy' := if is_ok r then (ip, ssl) :: busy else busy in
      let '(answers, self'', ledger) := pool_run rest self' busy' in
      (r :: answers, self'', ledger)
  | CallRelease ip ssl conn :: rest =>
      pool_run rest (ConnectionPool.release self conn) (remove_one (ip, ssl) busy)
  end.

Definition busy_total (ledger : list destination) : Z :=
  Z.of_nat (List.length ledger).

Definition busy_at (d : destination) (ledger : list destination) : Z :=
  Z.of_nat (List.length (filter (destination_eqb d) ledger)).

Definition is_call_acquire (c : PoolCall) : bool :=
  match c with CallAcquire _ _ => true | CallRelease _ _ _ => false end.


(** ** Scenarios and the properties asked of them *)

Section Scenarios.

Context {X : Collaborators}.
Variable B : Behaviour.

(** [queueRequest] called once per entry of [l], in the order of [l]. *)
Definition queue_all (l : list PendingRequest) (s : NetworkManager) : NetworkManager :=
  fold_left (fun s p => snd (queueRequest (url p) (options p) s)) l s.

(** A drain pass that gets past failures: the pass returns, leaves the queue
    empty, and has attempted every entry that was queued. *)
Definition drains_past_failures (s : NetworkManager) : Prop :=
  exists r s',
    processQueue B s = Returned r s' /\
    request_queue s' = [] /\
    forall p, In p (request_queue s) -> In p (fetched (since s s')).

(** A drain pass in first-in first-out order. *)
Definition drains_in_queue_order (s : NetworkManager) : Prop :=
  exists r s',
    processQueue B s = Returned r s' /\
    fetched (since s s') = request_queue s.

(** An update that fails leaves the configuration and every component as
    they were. *)
Definition failed_update_changes_nothing (new_config : NetworkConfig)
  (s : NetworkManager) : Prop :=
  forall e, fst (updateConfig B new_config s) = Err e ->
    let s' := snd (updateConfig B new_config s) in
    config s' = config s /\
    http_client s' = http_client s /\
    dns_resolver s' = dns_resolver s /\
    cache_manager s' = cache_manager s.


(** On a miss whose resolution, preparation and send succeed, [fetch]
    returns the response of the send. *)
Definition miss_returns_the_network_response (url : string)
  (options : FetchOptions) (s : NetworkManager) : Prop :=
  forall c' host ip d' request response h',
    cache_get B url (cache_manager s) = (Ok None, c') ->
    extractHost_body B url = Ok host ->
    dns_resolve B host (dns_resolver s) = (Ok ip, d') ->
    prepareRequest_body B url options = Ok request ->
    sendRequest_body B undefined request (http_client s) = (Ok response, h') ->
    fst (fetch B url options s) = Ok response.

(** The number of calls an update makes on the components, from the answers
    of the HTTP client, the resolver and the cache manager in that order: one
    more than the answers that come before the first error, the last call
    being the one on the pool. *)
Fixpoint reached (answers : list (result unit)) : nat :=
  match answers with
  | [] => 1
  | Ok _ :: rest => S (reached rest)
  | Err _ :: _ => 1
  end.

End Scenarios.

(** The busy connections stay within the two ceilings after every call of a
    client, on a pool built for the total ceiling. *)
Definition within_ceilings (max_total max_per_host : Z) (calls : list PoolCall)
  : Prop :=
  forall pool, ConnectionPool.init max_total = Ok pool ->
  forall n,
    let ledger := snd (pool_run (firstn n calls) pool []) in
    (busy_total ledger <= max_total)%Z /\
    forall d, (busy_at d ledger <= max_per_host)%Z.

Definition acquire_at (d : destination) : PoolCall :=
  CallAcquire (fst d) (snd d).

(** ** A concrete world

    Components that are no more than the settings they were last given and,
    for the cache, its entries.  The helper bodies are the placeholders the
    source has: [extractHost] returns the url, [prepareRequest] an empty
    request, [sendRequest] an empty response. *)

Module Demo.

Local Open Scope string_scope.

Inductive Policy : Type := AgeBased | LeastRecentlyUsed.

#[export] Instance collab : Collaborators := {|
  HttpClient := (Z * Z)%type;
  SslContext := string;
  DnsResolver := (list string * Z)%type;
  CacheManager := (Z * list (string * (string * bool)))%type;
  ExpirationPolicy := Policy;
  Request := unit;
  ResponseFields := string
|}.

Fixpoint lookup (url : string) (entries : list (string * (string * bool)))
  : option Response :=
  match entries with
  | [] => None
  | (u, (f, c)) :: rest =>
      if String.eqb url u
      then Some {| response_fields := f; is_cacheable := c |}
      else lookup url rest
  end.

(** The host that the resolver cannot resolve. *)
Definition down : string := "https://down.example/".

(** The url whose response the cache refuses to store. *)
Definition unstorable : string := "https://example.com/huge".

Definition empty_response : Response :=
  {| response_fields := EmptyString; is_cacheable := true |}.

Definition behaviour : Behaviour := {|
  cache_get := fun url c => (Ok (lookup url (snd c)), c);
  cache_set := fun url r c =>
    if String.eqb url unstorable then (Err "OutOfMemory", c)
    else (Ok tt, (fst c, (url, (response_fields r, is_cacheable r)) :: snd c));
  cache_updateConfig := fun o c => (Ok tt, (cache_opt_max_size o, snd c));
  dns_resolve := fun host d =>
    if String.eqb host down then (Err "TemporaryNameServerFailure", d)
    else (Ok "93.184.216.34", d);
  dns_updateConfig := fun o d =>
    match dns_nameservers o with
    | [] => (Err "NoNameservers", d)
    | _ => (Ok tt, (dns_nameservers o, dns_opt_cache_size o))
    end;
  http_updateConfig := fun o h =>
    (Ok tt, (http_max_connections_per_host o, http_timeout o));
  extractHost_body := fun url => Ok url;
  prepareRequest_body := fun url options => Ok tt;
  sendRequest_body := fun conn request h => (Ok empty_response, h)
|}%string.

(** The same world with a transport that resets every connection. *)
Definition behaviour_reset : Behaviour := {|
  cache_get := cache_get behaviour;
  cache_set := cache_set behaviour;
  cache_updateConfig := cache_updateConfig behaviour;
  dns_resolve := dns_resolve behaviour;
  dns_updateConfig := dns_updateConfig behaviour;
  http_updateConfig := http_updateConfig behaviour;
  extractHost_body := extractHost_body behaviour;
  prepareRequest_body := prepareRequest_body behaviour;
  sendRequest_body := fun conn request h => (Err "ConnectionResetByPeer", h)
|}%string.

Definition config0 : NetworkConfig := {|
  max_connections_per_host := 6;
  max_total_connections := 32;
  request_timeout := 10000;
  dns_servers := ["8.8.8.8"; "1.1.1.1"];
  dns_cache_size := 128;
  cache_max_size := 1048576;
  cache_expiration_policy := LeastRecentlyUsed;
  ca_bundle_path := "/etc/ssl/cert.pem";
  max_retries := 3;
  network_monitor_interval := 60000000000
|}%string%Z.

(** The manager as [NetworkManager.init] builds it from a config. *)
Definition init (c : NetworkConfig) : NetworkManager := {|
  http_client := (max_connections_per_host c, request_timeout c);
  ssl_context := ca_bundle_path c;
  dns_resolver := (dns_servers c, dns_cache_size c);
  cache_manager := (cache_max_size c, []);
  connection_pool := ConnectionPool.Empty;
  request_queue := [];
  config := c;
  trace := []
|}.

Definition start : NetworkManager := init config0.

Definition page_a : string := "https://example.com/a".
Definition page_b : string := "https://example.com/b".

Definition entry (u : string) : PendingRequest :=
  {| url := u; options := default_options |}.

(** A config that names no DNS server. *)
Definition config_no_dns : NetworkConfig := {|
  max_connections_per_host := 2;
  max_total_connections := 8;
  request_timeout := 30000;
  dns_servers := [];
  dns_cache_size := 128;
  cache_max_size := 4096;
  cache_expiration_policy := AgeBased;
  ca_bundle_path := "/etc/ssl/cert.pem";
  max_retries := 3;
  network_monitor_interval := 60000000000
|}%Z.

Definition slow_link : SpeedTestResult :=
  {| download_speed := 500000; upload_speed := 100000; latency := 120 |}%Z.


(** [queueRequest(page_a)] then [queueRequest(page_b)]. *)
Definition queued_a_b : NetworkManager :=
  queue_all [entry page_a; entry page_b] start.

(** [queueRequest(page_a)] then [queueRequest(down)]. *)
Definition queued_a_down : NetworkManager :=
  queue_all [entry page_a; entry down] start.

(** The manager after a first [fetch] of [page_a]. *)
Definition after_first : NetworkManager :=
  snd (fetch behaviour page_a default_options start).

(** The manager after a drain pass on [queued_a_b]. *)
Definition drained_a_b : NetworkManager :=
  match processQueue behaviour queued_a_b with
  | Returned _ s' => s'
  | _ => queued_a_b
  end.

(** Two connections to one destination. *)
Definition twice_same : list PoolCall :=
  [CallAcquire "10.0.0.1" true; CallAcquire "10.0.0.1" true].

End Demo.

(** ** The rest of the manager *)

Section Monitor.

Context {X : Collaborators}.
Variable B : Behaviour.

(** The body of [performSpeedTest] is omitted in the source.  A speed test
    goes through the HTTP client and gives a measurement or an error. *)
Variable performSpeedTest_body : HttpClient -> result SpeedTestResult * HttpClient.

Definition performSpeedTest : M SpeedTestResult :=
  fun s => let (r, h) := performSpeedTest_body (http_client s) in
           (r, with_http_client h s).

(** One turn of the [while (true)] of [monitorNetworkConditions]: measure,
    adjust, sleep for the interval the configuration has at that point. *)
Definition monitor_turn : M unit :=
  speed_test_result <- performSpeedTest ;;
  adjustSettingsBasedOnNetworkConditions B speed_test_result ;;
  fun s => emit (EvSleep (network_monitor_interval (config s))) s.


(** The manager after [n] turns of the loop, or after the turn that failed,
    with the number of turns that were completed. *)
Fixpoint monitor_turns (n : nat) (s : NetworkManager)
  : result unit * NetworkManager * nat :=
  match n with
  | O => (Ok tt, s, 0)
  | S n' =>
      match monitor_turn s with
      | (Ok _, s') =>
          let '(r, s'', k) := monitor_turns n' s' in (r, s'', S k)
      | (Err e, s') => (Err e, s', 0)
      end
  end.

Definition is_cache_get (e : Event) : bool :=
  match e with EvCacheGet _ => true | _ => false end.

(** The sleeps in a piece of trace, in order. *)
Fixpoint sleeps (d : list Event) : list Z :=
  match d with
  | [] => []
  | EvSleep ns :: d' => ns :: sleeps d'
  | _ :: d' => sleeps d'
  end.

(** The first error of a list of answers, if there is one. *)
Fixpoint first_error (answers : list (result unit)) : result unit :=
  match answers with
  | [] => Ok tt
  | Ok _ :: rest => first_error rest
  | Err e :: _ => Err e
  end.

End Monitor.

Module DemoMonitor.

Import Demo.

Local Open Scope string_scope.

(** A speed test that measures a slow link, and fails once the client has
    been throttled to two connections per host. *)
Definition speed_test (h : Z * Z) : result SpeedTestResult * (Z * Z) :=
  if (fst h =? 2)%Z then (Err "SpeedTestFailed", h) else (Ok slow_link, h).

Definition fast_link : SpeedTestResult :=
  {| download_speed := 50000000; upload_speed := 10000000; latency := 8 |}%Z.

(** A configuration that allows fifty retries. *)
Definition patient : NetworkManager :=
  with_config
    {| max_connections_per_host := 6;
       max_total_connections := 32;
       request_timeout := 10000;
       dns_servers := ["8.8.8.8"];
       dns_cache_size := 128;
       cache_max_size := 1048576;
       cache_expiration_policy := LeastRecentlyUsed;
       ca_bundle_path := "/etc/ssl/cert.pem";
       max_retries := 50;
       network_monitor_interval := 60000000000 |}%Z
    start.

(** The same world with a cache whose lookups fail. *)
Definition behaviour_cache_down : Behaviour := {|
  cache_get := fun url c => (Err "CacheCorrupted", c);
  cache_set := cache_set behaviour;
  cache_updateConfig := cache_updateConfig behaviour;
  dns_resolve := dns_resolve behaviour;
  dns_updateConfig := dns_updateConfig behaviour;
  http_updateConfig := http_updateConfig behaviour;
  extractHost_body := extractHost_body behaviour;
  prepareRequest_body := prepareRequest_body behaviour;
  sendRequest_body := sendRequest_body behaviour
|}.

Definition no_cache : FetchOptions :=
  {| use_cache := false; cache_response := true; use_ssl := true |}.

End DemoMonitor.

(** * The auto-update module

    The first module of the same file: [checkForUpdates], [performUpdate] and
    the functions they call.  [net], [json], [fs] and [crypto] are imported
    packages; what they answer is left open, and every call made on them is
    recorded in a journal. *)

From Stdlib Require DecimalString.

Module AutoUpdate.

Local Open Scope string_scope.

Definition UPDATE_CHECK_INTERVAL : Z := (60 * 60 * 1000)%Z.
Definition UPDATE_SERVER_URL : string :=
  "https://www.Aluminum.com/updates/api/v2/version".
Definition TEMP_DOWNLOAD_DIR : string := "./temp_downloads".
Definition CURRENT_VERSION : string := "1.2.3".

(** [std.time.ns_per_s] *)
Definition ns_per_s : Z := 1000000000.

(** [UpdateError] *)
Definition NetworkError : anyerror := "NetworkError".
Definition ServerError : anyerror := "ServerError".
Definition InvalidResponse : anyerror := "InvalidResponse".
Definition DownloadFailed : anyerror := "DownloadFailed".
Definition VerificationFailed : anyerror := "VerificationFailed".
Definition InstallationFailed : anyerror := "InstallationFailed".

Record UpdateResult := {
  version : string;
  changelog : string;
  download_url : string;
  signature : string
}.

(** What [request.send()] gives back, as far as the module reads it. *)
Record Reply := {
  status_code : Z;
  body : string
}.

(** The things the module has to give back: client, request, response,
    parser, parsed document, file. *)
Inductive Handle : Type :=
| HClient | HRequest | HResponse | HParser | HRoot | HFile.

(** The calls the module makes. *)
Inductive Call : Type :=
| ClientInit
| ClientRequest (url : string)
| HeadersAppend (name value : string)
| RequestSend
| ParserParse (body : string)
| MakePath (path : string)
| CreateFile (path : string)
| WriteAll (bytes : string)
| OpenFile (path : string)
| Read
| DeleteFile (path : string)
| AllocPrint
| Install
| Sleep (ns : Z)
| Exit (code : Z).

(** The journal: a call when it is made, a handle when the call that makes
    it has succeeded and when it is given back, and the bytes of each read
    that was not empty. *)
Inductive UEvent : Type :=
| UCall (c : Call)
| UOpened (h : Handle)
| UClosed (h : Handle)
| UChunk (bytes : string).

Class UpdateTypes : Type := {
  World : Type;
  JsonRoot : Type;
  JsonValue : Type;
  Hasher : Type
}.

(** How a function of the module ends: it returns a value or an error, the
    process exits, a [.?] meets [null], an access to memory that was given
    back faults, or the model runs out of fuel. *)
Inductive outcome (A : Type) : Type :=
| Done (r : result A)
| Exited (code : Z)
| NullUnwrapped
| Faulted
| Stalled.

Arguments Done {A} r.
Arguments Exited {A} code.
Arguments NullUnwrapped {A}.
Arguments Faulted {A}.
Arguments Stalled {A}.

(** A slice whose memory has been given back to the allocator; [was] is what
    it held until then.  What is read through it afterwards is not [was]: it
    is asked of [read_freed] below, at each use. *)
Inductive FreedSlice : Type :=
| Freed (was : string).

Section Monad.

Context {T : UpdateTypes}.

Record UpdateBehaviour := {
  client_init : World -> result unit * World;
  client_request : string -> World -> result unit * World;
  headers_append : string -> string -> World -> result unit * World;
  request_send : World -> result Reply * World;
  parser_parse : string -> World -> result JsonRoot * World;
  object_get : JsonRoot -> string -> option JsonValue;
  value_string : JsonValue -> result string;
  fs_makePath : string -> World -> result unit * World;
  milliTimestamp : World -> Z * World;
  fs_createFile : string -> World -> result unit * World;
  file_writeAll : string -> World -> result unit * World;
  fs_openFile : string -> World -> result unit * World;
  file_read : World -> result string * World;
  fs_deleteFile : string -> World -> result unit * World;
  hash_init : Hasher;
  hash_update : Hasher -> string -> Hasher;
  hash_final : Hasher -> string;
  (** [std.fmt.allocPrint] with ["{x}"] *)
  format_hex : string -> string;
  (** the allocation of an [allocPrint] on [std.heap.page_allocator]: it
      succeeds or fails with an error *)
  allocate : World -> result unit * World;
  (** a read through a slice that was freed: some bytes, which need not be
      those it held, or no value when the access faults *)
  read_freed : string -> World -> option string
}.

Record UpdateState := {
  world : World;
  journal : list UEvent
}.

Definition U (A : Type) : Type := UpdateState -> outcome A * UpdateState.

Definition uret {A} (a : A) : U A := fun s => (Done (Ok a), s).

Definition ufail {A} (e : anyerror) : U A := fun s => (Done (Err e), s).

(** [try]: anything but a value ends the function. *)
Definition ubind {A B} (m : U A) (k : A -> U B) : U B :=
  fun s =>
    match m s with
    | (Done (Ok a), s') => k a s'
    | (Done (Err e), s') => (Done (Err e), s')
    | (Exited code, s') => (Exited code, s')
    | (NullUnwrapped, s') => (NullUnwrapped, s')
    | (Faulted, s') => (Faulted, s')
    | (Stalled, s') => (Stalled, s')
    end.

(** [defer]: runs when the scope is left by a return, of a value or of an
    error; not when the process ends inside the scope. *)
Definition udefer {A} (cleanup : UpdateState -> UpdateState) (scope : U A) : U A :=
  fun s =>
    match scope s with
    | (Done r, s') => (Done r, cleanup s')
    | other => other
    end.

Definition note (e : UEvent) (s : UpdateState) : UpdateState :=
  {| world := world s; journal := journal s ++ [e] |}.

(** A fallible call on a package. *)
Definition call {A} (c : Call) (f : World -> result A * World) : U A :=
  fun s =>
    let (r, w) := f (world s) in
    (Done r, {| world := w; journal := journal s ++ [UCall c] |}).

(** A fallible call that, when it succeeds, leaves the module with a handle
    to give back. *)
Definition open {A} (c : Call) (h : Handle) (f : World -> result A * World) : U A :=
  fun s =>
    let (r, w) := f (world s) in
    (Done r,
     {| world := w;
        journal := journal s ++ UCall c ::
                   match r with Ok _ => [UOpened h] | Err _ => [] end |}).

Definition close (h : Handle) : UpdateState -> UpdateState := note (UClosed h).

End Monad.

Notation "x <~ c1 ;; c2" := (ubind c1 (fun x => c2))
  (at level 61, c1 at next level, right associativity).
Notation "c1 ;;~ c2" := (ubind c1 (fun _ => c2))
  (at level 61, right associativity).

Section Functions.

Context {T : UpdateTypes}.
Variable E : UpdateBehaviour.

(** [root.object.get(key).?.string()] *)
Definition get_string (root : JsonRoot) (key : string) : U string :=
  fun s =>
    match object_get E root key with
    | None => (NullUnwrapped, s)
    | Some v => (Done (value_string E v), s)
    end.

Definition checkForUpdates : U UpdateResult :=
  (* Prepare the request *)
  open ClientInit HClient (client_init E) ;;~
  udefer (close HClient)
    (open (ClientRequest UPDATE_SERVER_URL) HRequest
       (client_request E UPDATE_SERVER_URL) ;;~
     udefer (close HRequest)
       (call (HeadersAppend "User-Agent" "Aluminum-Browser/1.0")
          (headers_append E "User-Agent" "Aluminum-Browser/1.0") ;;~
        call (HeadersAppend "Current-Version" CURRENT_VERSION)
          (headers_append E "Current-Version" CURRENT_VERSION) ;;~
        (* Send the request and get the response *)
        response <~ open RequestSend HResponse (request_send E) ;;
        udefer (close HResponse)
          (if negb (status_code response =? 200)%Z then ufail ServerError
           else
             (* Parse the JSON response *)
             (fun s => (Done (Ok tt), note (UOpened HParser) s)) ;;~
             udefer (close HParser)
               (root <~ open (ParserParse (body response)) HRoot
                          (parser_parse E (body response)) ;;
                udefer (close HRoot)
                  ((* Extract update information *)
                   version <~ get_string root "version" ;;
                   changelog <~ get_string root "changelog" ;;
                   download_url <~ get_string root "download_url" ;;
                   signature <~ get_string root "signature" ;;
                   uret {| version := version;
                           changelog := changelog;
                           download_url := download_url;
                           signature := signature |}))))).


(** ["{s}/update_{d}.zip"] *)
Definition update_filename (timestamp : Z) : string :=
  TEMP_DOWNLOAD_DIR ++ "/update_" ++
  DecimalString.NilZero.string_of_int (Z.to_int timestamp) ++ ".zip".

(** [downloadUpdate] prints the name with [try allocPrint], and its first
    [defer] frees it: the deferred calls run latest first, so the name is
    whole for [fs.createFile] and is freed last, before the caller receives
    the slice.  What the function returns is therefore a freed slice. *)
Definition downloadUpdate (download_url : string) : U FreedSlice :=
  (* Ensure temp directory exists *)
  call (MakePath TEMP_DOWNLOAD_DIR) (fs_makePath E TEMP_DOWNLOAD_DIR) ;;~
  (* Generate a unique filename *)
  timestamp <~ (fun s => let (t, w) := milliTimestamp E (world s) in
                         (Done (Ok t), {| world := w; journal := journal s |})) ;;
  call AllocPrint (allocate E) ;;~
  let filename := update_filename timestamp in
  (* Download the file *)
  open ClientInit HClient (client_init E) ;;~
  udefer (close HClient)
    (open (ClientRequest download_url) HRequest (client_request E download_url) ;;~
     udefer (close HRequest)
       (response <~ open RequestSend HResponse (request_send E) ;;
        udefer (close HResponse)
          (if negb (status_code response =? 200)%Z then ufail DownloadFailed
           else
             open (CreateFile filename) HFile (fs_createFile E filename) ;;~
             udefer (close HFile)
               (call (WriteAll (body response)) (file_writeAll E (body response)) ;;~
                uret (Freed filename))))).

(** The read loop of [verifyUpdate]: a read of no byte ends it. *)
Fixpoint hash_file (reads : nat) (hasher : Hasher) : U Hasher :=
  match reads with
  | O => fun s => (Stalled, s)
  | S reads' =>
      chunk <~ call Read (file_read E) ;;
      match chunk with
      | EmptyString => uret hasher
      | _ => (fun s => (Done (Ok tt), note (UChunk chunk) s)) ;;~
             hash_file reads' (hash_update E hasher chunk)
      end
  end.

Definition verifyUpdate (reads : nat) (file_path expected_signature : string)
  : U unit :=
  open (OpenFile file_path) HFile (fs_openFile E file_path) ;;~
  udefer (close HFile)
    (hasher <~ hash_file reads (hash_init E) ;;
     let hash := hash_final E hasher in
     call AllocPrint (allocate E) ;;~
     let computed_signature := format_hex E hash in
     if String.eqb computed_signature expected_signature
     then uret tt
     else ufail VerificationFailed).

(** The installation is simulated by a sleep of five seconds; the path is
    not read. *)
Definition installUpdate (file_path : FreedSlice) : U unit :=
  fun s => (Done (Ok tt),
            note (UCall (Sleep (5 * ns_per_s))) (note (UCall Install) s)).

(** [std.process.exit(0)] *)
Definition restartApplication : U unit :=
  fun s => (Exited 0, note (UCall (Exit 0)) s).

(** A use of the bytes of a slice that was freed. *)
Definition through (name : FreedSlice) : U string :=
  fun s =>
    match name with
    | Freed was =>
        match read_freed E was (world s) with
        | Some bytes => (Done (Ok bytes), s)
        | None => (Faulted, s)
        end
    end.

(** [fs.deleteFile(update_file_path) catch {}] *)
Definition delete_quietly (name : FreedSlice) : U unit :=
  path <~ through name ;;
  fun s => (Done (Ok tt),
            {| world := snd (fs_deleteFile E path (world s));
               journal := journal s ++ [UCall (DeleteFile path)] |}).

(** [defer] of a call that reads freed memory: the scope's result is
    returned when the call went through. *)
Definition udefer_call {A} (cleanup : U unit) (scope : U A) : U A :=
  fun s =>
    match scope s with
    | (Done r, s') =>
        match cleanup s' with
        | (Done _, s'') => (Done r, s'')
        | (Exited code, s'') => (Exited code, s'')
        | (NullUnwrapped, s'') => (NullUnwrapped, s'')
        | (Faulted, s'') => (Faulted, s'')
        | (Stalled, s'') => (Stalled, s'')
        end
    | other => other
    end.

Definition performUpdate (reads : nat) (update_result : UpdateResult) : U unit :=
  (* Step 1: Download the update *)
  update_file_path <~ downloadUpdate (download_url update_result) ;;
  udefer_call (delete_quietly update_file_path)
    ((* Step 2: Verify the update *)
     (file_path <~ through update_file_path ;;
      verifyUpdate reads file_path (signature update_result)) ;;~
     (* Step 3: Install the update *)
     installUpdate update_file_path ;;~
     restartApplication).


(** *** Reading the journal *)

Definition added (s s' : UpdateState) : list UEvent :=
  skipn (List.length (journal s)) (journal s').

(** The handles still held after a piece of journal, the latest first; [None]
    when a handle is given back that is not the latest one held. *)
Fixpoint held (d : list UEvent) (stack : list Handle) : option (list Handle) :=
  match d with
  | [] => Some stack
  | UOpened h :: d' => held d' (h :: stack)
  | UClosed h :: d' =>
      match stack with
      | h' :: stack' =>
          match h, h' with
          | HClient, HClient | HRequest, HRequest | HResponse, HResponse
          | HParser, HParser | HRoot, HRoot | HFile, HFile => held d' stack'
          | _, _ => None
          end
      | [] => None
      end
  | _ :: d' => held d' stack
  end.

(** The bytes read, in order. *)
Fixpoint chunks (d : list UEvent) : list string :=
  match d with
  | [] => []
  | UChunk b :: d' => b :: chunks d'
  | _ :: d' => chunks d'
  end.

Definition is_call (p : Call -> bool) (e : UEvent) : bool :=
  match e with UCall c => p c | _ => false end.

Definition is_parse (c : Call) : bool :=
  match c with ParserParse _ => true | _ => false end.

Definition is_install (c : Call) : bool :=
  match c with Install => true | _ => false end.

Definition is_delete (c : Call) : bool :=
  match c with DeleteFile _ => true | _ => false end.

Definition is_create (c : Call) : bool :=
  match c with CreateFile _ => true | _ => false end.

Definition is_exit (c : Call) : bool :=
  match c with Exit _ => true | _ => false end.

Definition is_makepath (c : Call) : bool :=
  match c with MakePath _ => true | _ => false end.

Definition is_open_file (c : Call) : bool :=
  match c with OpenFile _ => true | _ => false end.

Definition is_write (c : Call) : bool :=
  match c with WriteAll _ => true | _ => false end.

Definition is_check_sleep (c : Call) : bool :=
  match c with Sleep ns => (ns =? UPDATE_CHECK_INTERVAL)%Z | _ => false end.

Definition calls (p : Call -> bool) (d : list UEvent) : nat :=
  List.length (filter (is_call p) d).

(** The events of the read loop. *)
Definition reading (e : UEvent) : bool :=
  match e with UCall Read => true | UChunk _ => true | _ => false end.

(** The digest [verifyUpdate] compares, from the bytes that were read. *)
Definition digest_of (d : list UEvent) : string :=
  format_hex E (hash_final E (fold_left (hash_update E) (chunks d) (hash_init E))).

End Functions.

End AutoUpdate.

(** A concrete world for the auto-update module: a server with one reply, a
    file given as the list of its reads, a digest that is the content
    itself, allocations that succeed and freed memory that still reads as it
    was. *)
Module DemoUpdate.

Import AutoUpdate.

Local Open Scope string_scope.

Record Disk := {
  served : Reply;
  to_read : list string;
  clock : Z
}.

#[export] Instance types : UpdateTypes := {|
  World := Disk;
  JsonRoot := list (string * string);
  JsonValue := string;
  Hasher := string
|}.

Fixpoint field (key : string) (object : list (string * string)) : option string :=
  match object with
  | [] => None
  | (k, v) :: rest => if String.eqb key k then Some v else field key rest
  end.

Definition manifest : list (string * string) :=
  [("version", "1.2.4"); ("changelog", "Fixes");
   ("download_url", "https://www.Aluminum.com/updates/1.2.4.zip");
   ("signature", "abcdef")].

Definition behaviour : UpdateBehaviour := {|
  client_init := fun w => (Ok tt, w);
  client_request := fun url w => (Ok tt, w);
  headers_append := fun name value w => (Ok tt, w);
  request_send := fun w => (Ok (served w), w);
  parser_parse := fun body w =>
    if String.eqb body "full" then (Ok manifest, w)
    else if String.eqb body "partial" then (Ok [("version", "1.2.4")], w)
    else (Err "SyntaxError", w);
  object_get := fun root key => field key root;
  value_string := fun v => Ok v;
  fs_makePath := fun path w => (Ok tt, w);
  milliTimestamp := fun w => (clock w, w);
  fs_createFile := fun path w => (Ok tt, w);
  file_writeAll := fun bytes w => (Ok tt, w);
  fs_openFile := fun path w => (Ok tt, w);
  file_read := fun w =>
    match to_read w with
    | [] => (Ok EmptyString, w)
    | c :: rest =>
        (Ok c, {| served := served w; to_read := rest; clock := clock w |})
    end;
  fs_deleteFile := fun path w => (Ok tt, w);
  hash_init := EmptyString;
  hash_update := fun h bytes => h ++ bytes;
  hash_final := fun h => h;
  format_hex := fun h => h;
  allocate := fun w => (Ok tt, w);
  read_freed := fun was w => Some was
|}.

(** The same world with a server that is down whatever is asked. *)
Definition behaviour_down : UpdateBehaviour := {|
  client_init := client_init behaviour;
  client_request := client_request behaviour;
  headers_append := headers_append behaviour;
  request_send := fun w =>
    (Ok {| status_code := 503; body := "Service Unavailable" |}, w);
  parser_parse := parser_parse behaviour;
  object_get := object_get behaviour;
  value_string := value_string behaviour;
  fs_makePath := fs_makePath behaviour;
  milliTimestamp := milliTimestamp behaviour;
  fs_createFile := fs_createFile behaviour;
  file_writeAll := file_writeAll behaviour;
  fs_openFile := fs_openFile behaviour;
  file_read := file_read behaviour;
  fs_deleteFile := fs_deleteFile behaviour;
  hash_init := hash_init behaviour;
  hash_update := hash_update behaviour;
  hash_final := hash_final behaviour;
  format_hex := format_hex behaviour;
  allocate := allocate behaviour;
  read_freed := read_freed behaviour
|}.

(** The same world where freed memory is unmapped: a read through it
    faults. *)
Definition behaviour_unmapped : UpdateBehaviour := {|
  client_init := client_init behaviour;
  client_request := client_request behaviour;
  headers_append := headers_append behaviour;
  request_send := request_send behaviour;
  parser_parse := parser_parse behaviour;
  object_get := object_get behaviour;
  value_string := value_string behaviour;
  fs_makePath := fs_makePath behaviour;
  milliTimestamp := milliTimestamp behaviour;
  fs_createFile := fs_createFile behaviour;
  file_writeAll := file_writeAll behaviour;
  fs_openFile := fs_openFile behaviour;
  file_read := file_read behaviour;
  fs_deleteFile := fs_deleteFile behaviour;
  hash_init := hash_init behaviour;
  hash_update := hash_update behaviour;
  hash_final := hash_final behaviour;
  format_hex := format_hex behaviour;
  allocate := allocate behaviour;
  read_freed := fun was w => None
|}.

Definition at_start (reply : Reply) (reads : list string) : UpdateState :=
  {| world := {| served := reply; to_read := reads; clock := 1700000000123 |};
     journal := [] |}.

(** The server knows an update and the file reads back as its signature. *)
Definition good : UpdateState :=
  at_start {| status_code := 200; body := "full" |} ["abc"; "def"].

(** The file reads back as something else. *)
Definition tampered : UpdateState :=
  at_start {| status_code := 200; body := "full" |} ["abc"; "xyz"].

(** The document lacks three of the four keys. *)
Definition partial : UpdateState :=
  at_start {| status_code := 200; body := "partial" |} [].


Definition update_1_2_4 : UpdateResult :=
  {| version := "1.2.4"; changelog := "Fixes";
     download_url := "https://www.Aluminum.com/updates/1.2.4.zip";
     signature := "abcdef" |}.

End DemoUpdate.

(** * Properties *)

Unset Implicit Arguments.

Arguments since : simpl never.

Section TraceFacts.

Context {X : Collaborators}.

Lemma since_app (s s' : NetworkManager) (d : list Event) :
  trace s' = trace s ++ d -> since s s' = d.
Proof.
  intros E. unfold since. rewrite E.
  rewrite skipn_app, skipn_all, Nat.sub_diag. reflexivity.
Qed.

Lemma fetched_app (d1 d2 : list Event) :
  fetched (d1 ++ d2) = fetched d1 ++ fetched d2.
Proof.
  induction d1 as [|e d1 IH]; [reflexivity|].
  destruct e; cbn; rewrite ?IH; reflexivity.
Qed.

End TraceFacts.

(** Unfolds one call of [fetch] down to the collaborators' answers. *)
Ltac unfold_fetch :=
  unfold fetch, cache_manager_get, cache_manager_set, dns_resolver_resolve,
    connection_pool_acquire, connection_pool_release, extractHost,
    prepareRequest, sendRequest, defer, bind, emit, ret; cbn.

Ltac flatten_trace := cbn; repeat rewrite <- app_assoc; cbn.

(** Splits the goal along the answers the collaborators can give, in the
    order [fetch] asks for them. *)
Ltac destruct_matches :=
  repeat (cbn; match goal with
    | |- context [use_cache ?o] => destruct (use_cache o) eqn:?
    | |- context [cache_get ?b ?u ?c] =>
        destruct (cache_get b u c) as [[[?|]|?] ?] eqn:?
    | |- context [extractHost_body ?b ?u] =>
        destruct (extractHost_body b u) eqn:?
    | |- context [dns_resolve ?b ?h ?d] =>
        destruct (dns_resolve b h d) as [[?|?] ?] eqn:?
    | |- context [prepareRequest_body ?b ?u ?o] =>
        destruct (prepareRequest_body b u o) eqn:?
    | |- context [sendRequest_body ?b ?c ?r ?h] =>
        destruct (sendRequest_body b c r h) as [[?|?] ?] eqn:?
    | |- context [cache_response ?o] => destruct (cache_response o) eqn:?
    | |- context [is_cacheable ?r] => destruct (is_cacheable r) eqn:?
    | |- context [cache_set ?b ?u ?r ?c] =>
        destruct (cache_set b u r c) as [[?|?] ?] eqn:?
    end); cbn.

Ltac explicit_since :=
  repeat (erewrite since_app by (flatten_trace; reflexivity)).

(** ** [fetch] *)

Section FetchProperties.

Context {X : Collaborators}.
Variable B : Behaviour.

(** A call of [fetch] adds its own marker and no other to the trace, and
    leaves the queue and the configuration alone. *)
Lemma fetch_frame (url : string) (options : FetchOptions) (s : NetworkManager) :
  exists d,
    trace (snd (fetch B url options s)) = trace s ++ EvFetch url options :: d /\
    fetched d = [] /\
    request_queue (snd (fetch B url options s)) = request_queue s /\
    config (snd (fetch B url options s)) = config s.
Proof.
  unfold_fetch. destruct_matches;
    (eexists; split; [flatten_trace; reflexivity | repeat split; reflexivity]).
Qed.

(** C1.  With [use_cache] set: when the cache answers the lookup of the url
    with an entry, [fetch] returns that entry at once; the only calls it made
    are the lookup itself, so no resolution, no acquisition and no send, and
    the resolver, the pool and the client are as they were.  When the cache
    answers with a miss and the resolution, the preparation and the send
    succeed, [fetch] resolves, acquires and sends once each, in that order;
    it returns the response of the send, unless that response is to be
    cached and the cache's [set] fails: then it returns the error of the
    [set] in place of the response.  Whatever happens, no stage runs
    twice. *)
Theorem fetch_cache_hit_else_network_once
  (url : string) (options : FetchOptions) (s : NetworkManager)
  (Hcache : use_cache options = true) :
  (forall cached c',
      cache_get B url (cache_manager s) = (Ok (Some cached), c') ->
      exists s',
        fetch B url options s = (Ok cached, s') /\
        since s s' = [EvFetch url options; EvCacheGet url] /\
        dns_resolver s' = dns_resolver s /\
        connection_pool s' = connection_pool s /\
        http_client s' = http_client s)
  /\
  (forall c' host ip d' request response h',
      cache_get B url (cache_manager s) = (Ok None, c') ->
      extractHost_body B url = Ok host ->
      dns_resolve B host (dns_resolver s) = (Ok ip, d') ->
      prepareRequest_body B url options = Ok request ->
      sendRequest_body B undefined request (http_client s) = (Ok response, h') ->
      exists s',
        fetch B url options s =
          (if cache_response options && is_cacheable response
           then match fst (cache_set B url response c') with
                | Ok _ => Ok response
                | Err e => Err e
                end
           else Ok response, s') /\
        since s s' =
          [EvFetch url options; EvCacheGet url;
           EvResolve host; EvAcquire ip (use_ssl options);
           EvSend undefined request]
          ++ (if cache_response options && is_cacheable response
              then [EvCacheSet url response] else [])
          ++ [EvRelease undefined])
  /\
  (let d := since s (snd (fetch B url options s)) in
   count is_resolve d <= 1 /\ count is_acquire d <= 1 /\ count is_send d <= 1).
Proof.
  split; [|split].
  - intros cached c' Hget.
    unfold_fetch. rewrite Hcache. cbn. rewrite Hget. cbn.
    eexists. split; [reflexivity|].
    repeat split; try reflexivity.
    apply since_app. flatten_trace. reflexivity.
  - intros c' host ip d' request response h' Hget Hhost Hres Hprep Hsend.
    unfold_fetch. rewrite Hcache. cbn. rewrite Hget. cbn.
    rewrite Hhost. cbn. rewrite Hres. cbn. rewrite Hprep. cbn.
    rewrite Hsend. cbn.
    destruct (cache_response options && is_cacheable response) eqn:Hc; cbn.
    + destruct (cache_set B url response c') as [[u|e] c''] eqn:Hs; cbn;
        (eexists; split; [reflexivity|]);
        apply since_app; flatten_trace; reflexivity.
    + eexists. split; [reflexivity|].
      apply since_app. flatten_trace. reflexivity.
  - unfold_fetch. destruct_matches; explicit_since; cbn; lia.
Qed.

(** C6.  When [fetch] returns a response that it got from a send, the
    response was stored in the cache exactly when [cache_response] is set and
    the response has [is_cacheable]: in that case the one [set] of the call
    was made for this url and response, it succeeded, and the cache is what
    it left; in the other case no [set] was made and the cache is as the
    lookup left it. *)
Theorem fetch_caches_iff_asked_and_cacheable
  (url : string) (options : FetchOptions) (s s' : NetworkManager)
  (response : Response) :
  fetch B url options s = (Ok response, s') ->
  0 < count is_send (since s s') ->
  let looked_up :=
    if use_cache options then snd (cache_get B url (cache_manager s))
    else cache_manager s in
  (In (EvCacheSet url response) (since s s') <->
   cache_response options && is_cacheable response = true)
  /\ (forall u r, In (EvCacheSet u r) (since s s') -> u = url /\ r = response)
  /\ count is_cache_set (since s s') <= 1
  /\ (cache_response options && is_cacheable response = true ->
      cache_set B url response looked_up = (Ok tt, cache_manager s'))
  /\ (cache_response options && is_cacheable response = false ->
      cache_manager s' = looked_up).
Proof.
  unfold_fetch. destruct_matches; intros H; inversion H; subst; clear H;
    explicit_since; cbn; intros Hsend; try lia.
  all: repeat match goal with u : unit |- _ => destruct u end.
  all: try congruence.
  all: split; [split; intros Hin;
                 [ reflexivity || (exfalso; intuition discriminate)
                 | discriminate || (repeat (first [left; reflexivity | right])) ]
              | ].
  all: split; [intros u r' Hin; intuition congruence | ].
  all: split; [lia | ].
  all: split; intros; congruence.
Qed.

(** C7.  Whatever [fetch] returns, a value or an error, if it acquired a
    connection then it released it: the call made one [acquire] and one
    [release], the release is of the pointer the pool handed out, and it is
    the last thing the call did, after preparing, sending and caching,
    whether these succeeded or failed. *)
Theorem fetch_releases_what_it_acquired
  (url : string) (options : FetchOptions) (s : NetworkManager)
  (ip : string) (ssl : bool) :
  let d := since s (snd (fetch B url options s)) in
  In (EvAcquire ip ssl) d ->
  last d (EvFetch url options) = EvRelease undefined /\
  count is_acquire d = 1 /\ count is_release d = 1.
Proof.
  unfold_fetch. destruct_matches; explicit_since; cbn; intros Hin;
    intuition (try discriminate; try reflexivity).
Qed.

End FetchProperties.

(** ** The request queue *)

Section QueueProperties.

Context {X : Collaborators}.
Variable B : Behaviour.

Lemma popOrNull_snoc {A} (l : list A) (x : A) :
  popOrNull (l ++ [x]) = (Some x, l).
Proof.
  unfold popOrNull. rewrite rev_app_distr. cbn. rewrite rev_involutive.
  reflexivity.
Qed.

Lemma popOrNull_some {A} (l rest : list A) (x : A) :
  popOrNull l = (Some x, rest) -> l = rest ++ [x].
Proof.
  unfold popOrNull. destruct (rev l) as [|y r] eqn:E; intros H; [discriminate|].
  apply (f_equal (@rev A)) in E. rewrite rev_involutive in E.
  inversion H; subst. reflexivity.
Qed.

Lemma popOrNull_none {A} (l rest : list A) :
  popOrNull l = (None, rest) -> l = [].
Proof.
  unfold popOrNull. destruct (rev l) as [|y r] eqn:E; intros H; [|discriminate].
  apply (f_equal (@rev A)) in E. rewrite rev_involutive in E. exact E.
Qed.

Lemma queue_all_appends (l : list PendingRequest) (s : NetworkManager) :
  request_queue (queue_all l s) = request_queue s ++ l /\
  trace (queue_all l s) = trace s.
Proof.
  revert s. induction l as [|p l IH]; intros s.
  - cbn. rewrite app_nil_r. split; reflexivity.
  - destruct (IH (snd (queueRequest (url p) (options p) s))) as [Hq Ht].
    change (queue_all (p :: l) s)
      with (queue_all l (snd (queueRequest (url p) (options p) s))).
    rewrite Hq, Ht. cbn.
    rewrite <- app_assoc. destruct p. split; reflexivity.
Qed.

(** What a drain pass does, for any fuel above the length of the queue. *)
Lemma processQueue_loop_spec (fuel : nat) :
  forall s, List.length (request_queue s) < fuel ->
  exists r s' attempted d,
    processQueue_loop B fuel s = Returned r s' /\
    request_queue s = request_queue s' ++ attempted /\
    trace s' = trace s ++ d /\
    fetched d = rev attempted /\
    match r with
    | Ok _ => request_queue s' = []
    | Err e =>
        exists failed later s1,
          attempted = failed :: later /\
          fetch B (url failed) (options failed) s1 = (Err e, s')
    end.
Proof.
  induction fuel as [|fuel IH]; intros s Hlen; [lia|].
  cbn [processQueue_loop].
  destruct (popOrNull (request_queue s)) as [[p|] rest] eqn:Hpop.
  - apply popOrNull_some in Hpop.
    destruct (fetch_frame B (url p) (options p) (with_request_queue rest s))
      as (d0 & Ht & Hf & Hq & _).
    destruct (fetch B (url p) (options p) (with_request_queue rest s))
      as [[a|e] s2] eqn:Hfetch; cbn in Ht, Hq.
    + destruct (IH s2) as (r & s' & attempted & d & Hrun & Hq' & Ht' & Hf' & Hr).
      { rewrite Hq. rewrite Hpop, length_app in Hlen. cbn in Hlen. lia. }
      exists r, s', (attempted ++ [p]), (EvFetch (url p) (options p) :: d0 ++ d).
      split; [exact Hrun|]. split.
      { rewrite Hpop, <- Hq, Hq', <- app_assoc. reflexivity. }
      split.
      { rewrite Ht', Ht, <- app_assoc. reflexivity. }
      split.
      { cbn. rewrite fetched_app, Hf, Hf', rev_app_distr. cbn.
        destruct p; reflexivity. }
      destruct r as [u|e]; [exact Hr|].
      destruct Hr as (failed & later & s1 & Ha & Hs1).
      exists failed, (later ++ [p]), s1. rewrite Ha. split; [reflexivity|exact Hs1].
    + exists (Err e), s2, [p], (EvFetch (url p) (options p) :: d0).
      split; [reflexivity|]. split; [rewrite Hq; exact Hpop|].
      split; [exact Ht|]. split.
      { cbn. rewrite Hf. destruct p; reflexivity. }
      exists p, [], (with_request_queue rest s). rewrite Hfetch.
      split; reflexivity.
  - apply popOrNull_none in Hpop.
    exists (Ok tt), s, [], []. rewrite Hpop, !app_nil_r.
    repeat split; solve [reflexivity | exact Hpop].
Qed.

(** C3.  After [queueRequest] has been called for the entries of [l] in
    order on an empty queue, the queue holds [l] in that order; a drain pass
    that returns without error has then called [fetch] once per entry and
    emptied the queue, but in the reverse of the order of queueing: the
    entry queued last is fetched first. *)
Theorem processQueue_fetches_in_reverse_of_queueing
  (l : list PendingRequest) (s s' : NetworkManager) :
  request_queue s = [] ->
  processQueue B (queue_all l s) = Returned (Ok tt) s' ->
  request_queue (queue_all l s) = l /\
  fetched (since (queue_all l s) s') = rev l /\
  request_queue s' = [].
Proof.
  intros Hempty Hrun.
  destruct (queue_all_appends l s) as [Hq _]. rewrite Hempty in Hq. cbn in Hq.
  destruct (processQueue_loop_spec
              (S (List.length (request_queue (queue_all l s)))) (queue_all l s)) as (r & s1 & attempted & d & Hrun' & Hq' & Ht & Hf & Hr);
    [lia|].
  unfold processQueue in Hrun. rewrite Hrun in Hrun'. inversion Hrun'; subst r s1.
  rewrite Hr in Hq'. cbn in Hq'.
  split; [exact Hq|]. split; [|exact Hr].
  rewrite (since_app _ _ _ Ht), Hf, <- Hq', Hq. reflexivity.
Qed.

(** C8.  A drain pass always returns.  It takes entries off the end of the
    queue and calls [fetch] once for each entry it takes, so no entry is
    attempted twice.  When the [fetch] of the entry it took succeeds, the pass
    goes on with the rest of the queue.  When that [fetch] fails, the entry
    is already off the queue and is not retried: the pass returns that error
    at once, in the state that [fetch] left, and the entries it had not
    reached stay in the queue, not attempted in this pass.  So a pass ends
    with an empty queue when every [fetch] succeeded, and otherwise with the
    error of the first [fetch] that failed. *)
Theorem processQueue_stops_at_first_failure (s : NetworkManager) :
  (exists r s' attempted,
     processQueue B s = Returned r s' /\
     request_queue s = request_queue s' ++ attempted /\
     fetched (since s s') = rev attempted /\
     match r with
     | Ok _ => request_queue s' = []
     | Err e =>
         exists failed later s1,
           attempted = failed :: later /\
           fetch B (url failed) (options failed) s1 = (Err e, s')
     end) /\
  (forall rest p,
     request_queue s = rest ++ [p] ->
     match fetch B (url p) (options p) (with_request_queue rest s) with
     | (Ok _, s1) =>
         processQueue B s = processQueue B s1 /\ request_queue s1 = rest
     | (Err e, s1) =>
         processQueue B s = Returned (Err e) s1 /\
         request_queue s1 = rest /\
         fetched (since s s1) = [p]
     end).
Proof.
  split.
  - destruct (processQueue_loop_spec (S (List.length (request_queue s))) s)
      as (r & s' & attempted & d & Hrun & Hq & Ht & Hf & Hr); [lia|].
    exists r, s', attempted. split; [exact Hrun|]. split; [exact Hq|].
    split; [|exact Hr]. rewrite (since_app _ _ _ Ht). exact Hf.
  - intros rest p Hq.
    destruct (fetch_frame B (url p) (options p) (with_request_queue rest s))
      as (d & Ht & Hf & Hq1 & _).
    assert (Hstep : processQueue B s =
              match fetch B (url p) (options p) (with_request_queue rest s) with
              | (Ok _, s1) => processQueue_loop B (S (List.length rest)) s1
              | (Err e, s1) => Returned (Err e) s1
              end).
    { unfold processQueue. cbn [processQueue_loop].
      rewrite Hq, popOrNull_snoc, length_app. cbn [List.length].
      rewrite Nat.add_1_r. reflexivity. }
    destruct (fetch B (url p) (options p) (with_request_queue rest s))
      as [[a|e] s1]; cbn [fst snd] in *; cbn in Ht, Hq1.
    + split; [|exact Hq1].
      rewrite Hstep. unfold processQueue. rewrite Hq1. reflexivity.
    + split; [exact Hstep|]. split; [exact Hq1|].
      rewrite (since_app _ _ _ Ht). cbn. rewrite Hf. destruct p; reflexivity.
Qed.

End QueueProperties.

(** ** Configuration updates *)

Ltac unfold_update :=
  unfold adjustSettingsBasedOnNetworkConditions, updateConfig,
    http_client_updateConfig, dns_resolver_updateConfig,
    cache_manager_updateConfig, connection_pool_setMaxConnections,
    bind, emit, ret; cbn.

Ltac split_updates :=
  repeat (cbn; match goal with
    | |- context [http_updateConfig ?b ?o ?h] =>
        destruct (http_updateConfig b o h) as [[[]|?] ?] eqn:?
    | |- context [dns_updateConfig ?b ?o ?d] =>
        destruct (dns_updateConfig b o d) as [[[]|?] ?] eqn:?
    | |- context [cache_updateConfig ?b ?o ?c] =>
        destruct (cache_updateConfig b o c) as [[[]|?] ?] eqn:?
    end); cbn.

Section ConfigProperties.

Context {X : Collaborators}.
Variable B : Behaviour.

(** [updateConfig] stores the new configuration before it calls anything. *)
Lemma updateConfig_config (new_config : NetworkConfig) (s : NetworkManager) :
  config (snd (updateConfig B new_config s)) = new_config.
Proof. unfold_update. split_updates; reflexivity. Qed.

Lemma updateConfig_applies_like (new_config : NetworkConfig) (s : NetworkManager) :
  exists d,
    trace (snd (updateConfig B new_config s)) =
    trace s ++ EvHttpUpdateConfig (http_options_of new_config) :: d.
Proof.
  unfold_update.
  split_updates; (eexists; flatten_trace; reflexivity).
Qed.

(** C9.  [updateConfig] overwrites the whole configuration first and then
    calls the HTTP client, the DNS resolver, the cache manager and the pool,
    in that order, stopping at the first call that fails.  So after an update
    the configuration is always the new one; the calls made are those up to
    and including the first component that refuses, or all four; the update
    returns the error of that component, and returns without error exactly
    when all four calls were made.  The HTTP client is as its update left
    it; the resolver is as its update left it when the HTTP client accepted,
    and otherwise is as it was; the cache manager is as its update left it
    when both accepted, and otherwise is as it was.  Nothing is rolled
    back. *)
Theorem updateConfig_applies_in_order_until_first_failure
  (new_config : NetworkConfig) (s : NetworkManager) :
  let r := fst (updateConfig B new_config s) in
  let s' := snd (updateConfig B new_config s) in
  let http := http_updateConfig B (http_options_of new_config) (http_client s) in
  let dns := dns_updateConfig B (dns_options_of new_config) (dns_resolver s) in
  let cache :=
    cache_updateConfig B (cache_options_of new_config) (cache_manager s) in
  let k := reached [fst http; fst dns; fst cache] in
  config s' = new_config /\
  since s s' = firstn k (pushes new_config) /\
  r = first_error [fst http; fst dns; fst cache] /\
  (r = Ok tt <-> k = 4) /\
  http_client s' = snd http /\
  dns_resolver s' = (if is_ok (fst http) then snd dns else dns_resolver s) /\
  cache_manager s' =
    (if is_ok (fst http) && is_ok (fst dns) then snd cache else cache_manager s).
Proof.
  unfold_update. unfold http_options_of, dns_options_of, cache_options_of.
  split_updates; explicit_since; cbn;
    repeat split; intros; solve [reflexivity | lia | discriminate].
Qed.

(** C5.  After [adjustSettingsBasedOnNetworkConditions] the configuration has
    the pair of the band the measured download speed falls in: (2, 30000)
    below 1 Mbps, so for 500 kbps; (4, 15000) from 1 Mbps up to but not
    including 10 Mbps; (6, 10000) from 10 Mbps; and this pair is what the
    HTTP client is handed. *)
Theorem adjust_sets_the_pair_of_the_band
  (speed_test_result : SpeedTestResult) (s : NetworkManager) :
  let s' := snd (adjustSettingsBasedOnNetworkConditions B speed_test_result s) in
  let pair :=
    (max_connections_per_host (config s'), request_timeout (config s')) in
  let speed := download_speed speed_test_result in
  ((speed = 500000)%Z -> pair = (2, 30000)%Z) /\
  ((speed < 1000000)%Z -> pair = (2, 30000)%Z) /\
  ((1000000 <= speed < 10000000)%Z -> pair = (4, 15000)%Z) /\
  ((10000000 <= speed)%Z -> pair = (6, 10000)%Z) /\
  hd_error (since s s') =
    Some (EvHttpUpdateConfig
            {| http_max_connections_per_host := fst pair;
               http_timeout := snd pair |}).
Proof.
  cbv zeta. unfold adjustSettingsBasedOnNetworkConditions.
  rewrite updateConfig_config.
  assert (Hhd : hd_error (since s (snd (updateConfig B
                  (adjusted_config (config s) speed_test_result) s))) =
                Some (EvHttpUpdateConfig
                  (http_options_of (adjusted_config (config s) speed_test_result)))).
  { destruct (updateConfig_applies_like (adjusted_config (config s) speed_test_result) s)
      as (d & Hd). rewrite (since_app _ _ _ Hd). reflexivity. }
  rewrite Hhd. unfold adjusted_config, http_options_of.
  destruct (download_speed speed_test_result <? 1000000)%Z eqn:H1;
    [|destruct (download_speed speed_test_result <? 10000000)%Z eqn:H2];
    cbn; repeat split; intros; try reflexivity; lia.
Qed.

(** C10.  The configuration that [adjustSettingsBasedOnNetworkConditions]
    pushes, and that the manager holds afterwards, is the previous one with
    [max_connections_per_host] and [request_timeout] rewritten: the other
    eight fields have their previous values. *)
Theorem adjust_changes_only_the_pair
  (speed_test_result : SpeedTestResult) (s : NetworkManager) :
  let c := config s in
  let pushed := adjusted_config c speed_test_result in
  let s' := snd (adjustSettingsBasedOnNetworkConditions B speed_test_result s) in
  config s' = pushed /\
  pushed = with_request_timeout (request_timeout pushed)
             (with_max_connections_per_host (max_connections_per_host pushed) c) /\
  max_total_connections pushed = max_total_connections c /\
  dns_servers pushed = dns_servers c /\
  dns_cache_size pushed = dns_cache_size c /\
  cache_max_size pushed = cache_max_size c /\
  cache_expiration_policy pushed = cache_expiration_policy c /\
  ca_bundle_path pushed = ca_bundle_path c /\
  max_retries pushed = max_retries c /\
  network_monitor_interval pushed = network_monitor_interval c.
Proof.
  cbv zeta. unfold adjustSettingsBasedOnNetworkConditions.
  rewrite updateConfig_config.
  split; [reflexivity|].
  unfold adjusted_config.
  destruct (download_speed speed_test_result <? 1000000)%Z;
    [|destruct (download_speed speed_test_result <? 10000000)%Z];
    cbn; repeat split; reflexivity.
Qed.

End ConfigProperties.

(** ** Retrying *)

Section RetryProperties.

Context {X : Collaborators}.


Lemma backoff_fits (i : Z) :
  (0 <= i <= 44)%Z ->
  pow_u64 2 i = Some (2 ^ i)%Z /\ mul_u64 ns_per_ms (2 ^ i) = Some (ns_per_ms * 2 ^ i)%Z.
Proof.
  intros Hi.
  assert (H44 : (2 ^ i <= 2 ^ 44)%Z) by (apply Z.pow_le_mono_r; lia).
  assert (Hpos : (0 < 2 ^ i)%Z) by (apply Z.pow_pos_nonneg; lia).
  change (2 ^ 44)%Z with 17592186044416%Z in H44.
  unfold pow_u64, mul_u64, u64_max, ns_per_ms.
  change (2 ^ 64 - 1)%Z with 18446744073709551615%Z.
  split.
  - destruct (Z.leb_spec (2 ^ i) 18446744073709551615); [reflexivity|lia].
  - destruct (Z.leb_spec (1000000 * 2 ^ i) 18446744073709551615); [reflexivity|lia].
Qed.

(** Below [max_retries], and while the wait fits in 64 bits,
    [handleNetworkError] sleeps [ns_per_ms * 2 ^ retry_count] and returns. *)
Lemma handleNetworkError_sleeps (err : anyerror) (i : Z) (s : NetworkManager) :
  (0 <= i <= 44)%Z -> (i < max_retries (config s))%Z ->
  handleNetworkError err i s =
  Returned (Ok tt) (with_trace (trace s ++ [EvSleep (ns_per_ms * 2 ^ i)]) s).
Proof.
  intros Hi Hm. unfold handleNetworkError.
  destruct (Z.leb_spec (max_retries (config s)) i); [lia|].
  destruct (backoff_fits i Hi) as [Hp Hq]. rewrite Hp, Hq. reflexivity.
Qed.

(** From retry 45 on the wait no longer fits and the checked arithmetic
    stops the program. *)
Lemma handleNetworkError_overflows (err : anyerror) (i : Z) (s : NetworkManager) :
  (45 <= i)%Z -> (i < max_retries (config s))%Z ->
  handleNetworkError err i s = IntegerOverflow.
Proof.
  intros Hi Hm. unfold handleNetworkError.
  destruct (Z.leb_spec (max_retries (config s)) i); [lia|].
  assert (H45 : (2 ^ 45 <= 2 ^ i)%Z) by (apply Z.pow_le_mono_r; lia).
  change (2 ^ 45)%Z with 35184372088832%Z in H45.
  unfold pow_u64, mul_u64, u64_max, ns_per_ms.
  change (2 ^ 64 - 1)%Z with 18446744073709551615%Z.
  destruct (Z.leb_spec (2 ^ i) 18446744073709551615); [|reflexivity].
  destruct (Z.leb_spec (1000000 * 2 ^ i) 18446744073709551615); [lia|reflexivity].
Qed.

(** From [max_retries] on it returns the error it was given. *)
Lemma handleNetworkError_gives_up (err : anyerror) (i : Z) (s : NetworkManager) :
  (max_retries (config s) <= i)%Z ->
  handleNetworkError err i s = Returned (Err err) s.
Proof.
  intros Hm. unfold handleNetworkError.
  destruct (Z.leb_spec (max_retries (config s)) i); [reflexivity|lia].
Qed.







End RetryProperties.

(** ** The connection pool *)

Lemma pool_run_answers (calls : list PoolCall) :
  forall (pool : ConnectionPool.t) (busy : list destination),
    Forall (fun r => r = Ok undefined) (fst (fst (pool_run calls pool busy))) /\
    List.length (fst (fst (pool_run calls pool busy))) =
      List.length (filter is_call_acquire calls) /\
    snd (fst (pool_run calls pool busy)) = ConnectionPool.Empty.
Proof.
  induction calls as [|c calls IH]; intros pool busy.
  - destruct pool. cbn. repeat split; constructor.
  - destruct c as [ip ssl|ip ssl conn]; cbn.
    + specialize (IH pool ((ip, ssl) :: busy)).
      destruct (pool_run calls pool ((ip, ssl) :: busy)) as [[answers p] ledger].
      cbn in *. destruct IH as (Hf & Hl & Hp).
      repeat split; [constructor; [reflexivity|exact Hf] | lia | exact Hp].
    + apply IH.
Qed.

Lemma pool_run_acquires (dests : list destination) :
  forall (pool : ConnectionPool.t) (busy : list destination),
    snd (pool_run (map acquire_at dests) pool busy) = rev dests ++ busy.
Proof.
  induction dests as [|d dests IH]; intros pool busy; [reflexivity|].
  destruct d as [ip ssl]. cbn.
  specialize (IH pool ((ip, ssl) :: busy)).
  destruct (pool_run (map acquire_at dests) pool ((ip, ssl) :: busy))
    as [[answers p] ledger].
  cbn in *. rewrite IH, <- app_assoc. reflexivity.
Qed.

(** C4.  The pool of the source holds no connection and no ceiling.  Its
    [init] drops the ceiling it is given; every [acquire] returns a pointer at
    once and never fails, whatever was acquired before; [activeConnections]
    reports 0 throughout.  So the connections handed out and not yet released
    are as many as the client asked for: after acquiring for the
    destinations [dests] with no release, all of them are busy. *)
Theorem pool_hands_out_without_ceiling
  (max_connections : Z) (calls : list PoolCall) (dests : list destination) :
  ConnectionPool.init max_connections = Ok ConnectionPool.Empty /\
  Forall (fun r => r = Ok undefined)
    (fst (fst (pool_run calls ConnectionPool.Empty []))) /\
  List.length (fst (fst (pool_run calls ConnectionPool.Empty []))) =
    List.length (filter is_call_acquire calls) /\
  ConnectionPool.activeConnections
    (snd (fst (pool_run calls ConnectionPool.Empty []))) = 0%Z /\
  busy_total (snd (pool_run (map acquire_at dests) ConnectionPool.Empty [])) =
    Z.of_nat (List.length dests).
Proof.
  destruct (pool_run_answers calls ConnectionPool.Empty []) as (Hf & Hl & Hp).
  repeat split; try assumption.
  rewrite pool_run_acquires, app_nil_r. unfold busy_total.
  rewrite length_rev. reflexivity.
Qed.

(** * The properties on the concrete world *)

Section Concrete.

Import Demo.

Local Open Scope string_scope.

Lemma fetch_cache_hit_else_network_once_witness :
  (exists s',
      fetch behaviour page_a default_options after_first = (Ok empty_response, s') /\
      since after_first s' = [EvFetch page_a default_options; EvCacheGet page_a] /\
      dns_resolver s' = dns_resolver after_first /\
      connection_pool s' = connection_pool after_first /\
      http_client s' = http_client after_first)
  /\
  (exists s',
      fetch behaviour page_a default_options start = (Ok empty_response, s') /\
      since start s' =
        [EvFetch page_a default_options; EvCacheGet page_a;
         EvResolve page_a; EvAcquire "93.184.216.34" true; EvSend undefined tt;
         EvCacheSet page_a empty_response; EvRelease undefined])
  /\
  (exists s',
      fetch behaviour unstorable default_options start = (Err "OutOfMemory", s') /\
      since start s' =
        [EvFetch unstorable default_options; EvCacheGet unstorable;
         EvResolve unstorable; EvAcquire "93.184.216.34" true;
         EvSend undefined tt;
         EvCacheSet unstorable empty_response; EvRelease undefined]).
Proof.
  split; [|split].
  - exact (proj1 (fetch_cache_hit_else_network_once behaviour page_a
                    default_options after_first eq_refl)
             empty_response (cache_manager after_first) eq_refl).
  - exact (proj1 (proj2 (fetch_cache_hit_else_network_once behaviour page_a
                           default_options start eq_refl))
             (cache_manager start) page_a "93.184.216.34" (dns_resolver start)
             tt empty_response (http_client start)
             eq_refl eq_refl eq_refl eq_refl eq_refl).
  - exact (proj1 (proj2 (fetch_cache_hit_else_network_once behaviour unstorable
                           default_options start eq_refl))
             (cache_manager start) unstorable "93.184.216.34" (dns_resolver start)
             tt empty_response (http_client start)
             eq_refl eq_refl eq_refl eq_refl eq_refl).
Defined.

(** The cache misses, the host resolves, the send gives a response, and the
    cache refuses to store it: [fetch] returns the error of the store. *)
Lemma failed_store_hides_the_network_response :
  ~ miss_returns_the_network_response behaviour unstorable default_options start.
Proof.
  intros H.
  specialize (H (cache_manager start) unstorable "93.184.216.34"
                (dns_resolver start) tt empty_response (http_client start)
                eq_refl eq_refl eq_refl eq_refl eq_refl).
  vm_compute in H. discriminate H.
Qed.



Lemma processQueue_fetches_in_reverse_of_queueing_witness :
  request_queue queued_a_b = [entry page_a; entry page_b] /\
  fetched (since queued_a_b drained_a_b) = [entry page_b; entry page_a] /\
  request_queue drained_a_b = [].
Proof.
  apply (processQueue_fetches_in_reverse_of_queueing behaviour
           [entry page_a; entry page_b] start drained_a_b).
  - reflexivity.
  - vm_compute. reflexivity.
Defined.

(** Two entries queued, both fetched without error, and not in queue order. *)
Example processQueue_not_in_queue_order :
  ~ drains_in_queue_order behaviour queued_a_b.
Proof.
  intros (r & s' & Hrun & Horder).
  vm_compute in Hrun. inversion Hrun; subst r s'; clear Hrun.
  vm_compute in Horder. discriminate Horder.
Qed.

(** The second connection to a destination is handed out under a ceiling
    of one. *)
Lemma second_acquire_exceeds_ceiling_of_one :
  ~ within_ceilings 1 1 twice_same.
Proof.
  intros H. destruct (H ConnectionPool.Empty eq_refl 2) as [Htotal _].
  cbn in Htotal. unfold busy_total in Htotal. cbn in Htotal. lia.
Qed.

Lemma adjust_sets_the_pair_of_the_band_witness :
  let s' := snd (adjustSettingsBasedOnNetworkConditions behaviour slow_link start) in
  (max_connections_per_host (config s'), request_timeout (config s'))
  = (2, 30000)%Z.
Proof.
  exact (proj1 (adjust_sets_the_pair_of_the_band behaviour slow_link start) eq_refl).
Defined.

Lemma fetch_caches_iff_asked_and_cacheable_witness :
  fetch behaviour page_a default_options start = (Ok empty_response, after_first) /\
  (In (EvCacheSet page_a empty_response) (since start after_first) <->
   cache_response default_options && is_cacheable empty_response = true).
Proof.
  split; [reflexivity|].
  apply (fetch_caches_iff_asked_and_cacheable behaviour page_a default_options
           start after_first empty_response eq_refl).
  vm_compute. apply le_n.
Defined.

Lemma fetch_releases_what_it_acquired_witness :
  let r := fetch behaviour_reset page_a default_options start in
  fst r = Err "ConnectionResetByPeer" /\
  last (since start (snd r)) (EvFetch page_a default_options)
  = EvRelease undefined.
Proof.
  split; [reflexivity|].
  apply (fetch_releases_what_it_acquired behaviour_reset page_a default_options
           start "93.184.216.34" true).
  vm_compute. do 3 right. left. reflexivity.
Defined.

(** The entry queued last fails to resolve: the pass stops there and the
    entry queued first is left in the queue, never fetched. *)
Lemma failed_fetch_ends_the_drain_pass :
  ~ drains_past_failures behaviour queued_a_down.
Proof.
  intros (r & s' & Hrun & Hq & _).
  vm_compute in Hrun. inversion Hrun; subst r s'; clear Hrun.
  cbn in Hq. discriminate Hq.
Qed.

Lemma processQueue_stops_at_first_failure_witness :
  let failed := fetch behaviour down default_options
                  (with_request_queue [entry page_a] queued_a_down) in
  processQueue behaviour queued_a_down =
    Returned (Err "TemporaryNameServerFailure") (snd failed) /\
  request_queue (snd failed) = [entry page_a] /\
  fetched (since queued_a_down (snd failed)) = [entry down].
Proof.
  exact (proj2 (processQueue_stops_at_first_failure behaviour queued_a_down)
           [entry page_a] (entry down) eq_refl).
Defined.

(** The resolver rejects the update: the configuration and the HTTP client
    already have the new settings, the resolver and the cache the old ones. *)
Lemma failed_update_leaves_a_mixture :
  ~ failed_update_changes_nothing behaviour config_no_dns start.
Proof.
  intros H. destruct (H "NoNameservers" eq_refl) as (Hc & _).
  apply (f_equal max_connections_per_host) in Hc. cbn in Hc. discriminate Hc.
Qed.

Lemma updateConfig_applies_in_order_until_first_failure_witness :
  let r := updateConfig behaviour config_no_dns start in
  fst r = Err "NoNameservers" /\
  config (snd r) = config_no_dns /\
  http_client (snd r) = (2, 30000)%Z /\
  dns_resolver (snd r) = dns_resolver start /\
  cache_manager (snd r) = cache_manager start.
Proof.
  split; [reflexivity|].
  split; [exact (proj1 (updateConfig_applies_in_order_until_first_failure
                          behaviour config_no_dns start))|].
  repeat split; reflexivity.
Defined.

End Concrete.

(** * Further properties of the manager *)

Section MoreFetch.

Context {X : Collaborators}.
Variable B : Behaviour.

(** X1.  With [use_cache] off, [fetch] never asks the cache, whatever the
    cache holds: the first call after the entry is the resolution of the
    host. *)
Theorem fetch_without_cache_skips_lookup
  (url : string) (options : FetchOptions) (s : NetworkManager) :
  use_cache options = false ->
  let d := since s (snd (fetch B url options s)) in
  count is_cache_get d = 0 /\
  forall host, extractHost_body B url = Ok host ->
               nth_error d 1 = Some (EvResolve host).
Proof.
  intros Hoff. unfold_fetch. rewrite Hoff.
  destruct_matches; explicit_since; cbn;
    (split; [reflexivity | intros host Hh; congruence]).
Qed.

(** X2.  When the lookup does not hit and the resolver fails, [fetch]
    returns the resolver's error; it acquires no connection, sends nothing,
    releases nothing and stores nothing, and the pool and the HTTP client
    are as they were. *)
Theorem fetch_failed_resolution_acquires_nothing
  (url host : string) (options : FetchOptions) (s : NetworkManager)
  (e : anyerror) :
  (use_cache options = true ->
   fst (cache_get B url (cache_manager s)) = Ok None) ->
  extractHost_body B url = Ok host ->
  fst (dns_resolve B host (dns_resolver s)) = Err e ->
  let r := fetch B url options s in
  let d := since s (snd r) in
  fst r = Err e /\
  count is_acquire d = 0 /\ count is_send d = 0 /\
  count is_release d = 0 /\ count is_cache_set d = 0 /\
  connection_pool (snd r) = connection_pool s /\
  http_client (snd r) = http_client s.
Proof.
  intros Hmiss Hhost Hdns. revert Hmiss Hdns.
  unfold_fetch. rewrite Hhost.
  destruct (use_cache options); cbn.
  - destruct (cache_get B url (cache_manager s)) as [[[cached|]|e'] c'];
      cbn; intros Hmiss; specialize (Hmiss eq_refl); try discriminate.
    destruct (dns_resolve B host (dns_resolver s)) as [[ip|e'] d'];
      cbn; intros Hdns; [discriminate|].
    injection Hdns as ->. explicit_since. cbn. repeat split; reflexivity.
  - intros _.
    destruct (dns_resolve B host (dns_resolver s)) as [[ip|e'] d'];
      cbn; intros Hdns; [discriminate|].
    injection Hdns as ->. explicit_since. cbn. repeat split; reflexivity.
Qed.

(** X3.  When the network answered and the response is to be cached, a
    failure of the cache's [set] makes [fetch] return that error in place of
    the response it received; the connection is released all the same. *)
Theorem fetch_failed_store_loses_the_response
  (url host ip : string) (options : FetchOptions) (s : NetworkManager)
  (request : Request) (response : Response) (e : anyerror) :
  (use_cache options = true ->
   fst (cache_get B url (cache_manager s)) = Ok None) ->
  extractHost_body B url = Ok host ->
  fst (dns_resolve B host (dns_resolver s)) = Ok ip ->
  prepareRequest_body B url options = Ok request ->
  fst (sendRequest_body B undefined request (http_client s)) = Ok response ->
  cache_response options && is_cacheable response = true ->
  fst (cache_set B url response
         (if use_cache options
          then snd (cache_get B url (cache_manager s))
          else cache_manager s)) = Err e ->
  let r := fetch B url options s in
  let d := since s (snd r) in
  fst r = Err e /\
  In (EvSend undefined request) d /\
  last d (EvFetch url options) = EvRelease undefined.
Proof.
  intros Hmiss Hhost Hdns Hprep Hsend Hcond Hset.
  revert Hmiss Hdns Hsend Hset.
  unfold_fetch. rewrite Hhost.
  destruct (use_cache options); cbn.
  - destruct (cache_get B url (cache_manager s)) as [[[cached|]|e'] c'];
      cbn; intros Hmiss; specialize (Hmiss eq_refl); try discriminate.
    destruct (dns_resolve B host (dns_resolver s)) as [[ip'|e'] d'];
      cbn; intros Hdns; [|discriminate]. injection Hdns as ->.
    rewrite Hprep. cbn.
    destruct (sendRequest_body B undefined request (http_client s))
      as [[response'|e'] h']; cbn; intros Hsend; [|discriminate].
    injection Hsend as ->. rewrite Hcond. cbn.
    destruct (cache_set B url response c') as [[u|e'] c'']; cbn; intros Hset;
      [discriminate|]. injection Hset as ->.
    explicit_since. cbn. repeat split; auto 10.
  - intros _.
    destruct (dns_resolve B host (dns_resolver s)) as [[ip'|e'] d'];
      cbn; intros Hdns; [|discriminate]. injection Hdns as ->.
    rewrite Hprep. cbn.
    destruct (sendRequest_body B undefined request (http_client s))
      as [[response'|e'] h']; cbn; intros Hsend; [|discriminate].
    injection Hsend as ->. rewrite Hcond. cbn.
    destruct (cache_set B url response (cache_manager s)) as [[u|e'] c''];
      cbn; intros Hset; [discriminate|]. injection Hset as ->.
    explicit_since. cbn. repeat split; auto 10.
Qed.

(** X4.  A lookup that fails is not taken for a miss: with [use_cache] on,
    an error of the cache's [get] is the result of [fetch], and nothing is
    resolved, acquired or sent. *)
Theorem fetch_failed_lookup_is_not_a_miss
  (url : string) (options : FetchOptions) (s : NetworkManager) (e : anyerror) :
  use_cache options = true ->
  fst (cache_get B url (cache_manager s)) = Err e ->
  let r := fetch B url options s in
  fst r = Err e /\
  since s (snd r) = [EvFetch url options; EvCacheGet url] /\
  dns_resolver (snd r) = dns_resolver s /\
  connection_pool (snd r) = connection_pool s /\
  http_client (snd r) = http_client s.
Proof.
  intros Hon. unfold_fetch. rewrite Hon. cbn.
  destruct (cache_get B url (cache_manager s)) as [[[cached|]|e'] c'];
    cbn; intros Hget; try discriminate.
  injection Hget as ->. explicit_since. repeat split; reflexivity.
Qed.

(** X5.  Whatever it returns, [fetch] leaves the request queue, the
    configuration and the SSL context as they were, and only adds to the
    trace: what was recorded before the call is still there. *)
Theorem fetch_keeps_queue_config_and_context
  (url : string) (options : FetchOptions) (s : NetworkManager) :
  let s' := snd (fetch B url options s) in
  request_queue s' = request_queue s /\
  config s' = config s /\
  ssl_context s' = ssl_context s /\
  firstn (List.length (trace s)) (trace s') = trace s.
Proof.
  cbv zeta.
  assert (Ht : exists d, trace (snd (fetch B url options s)) = trace s ++ d).
  { destruct (fetch_frame B url options s) as (d & Ht & _).
    eexists. exact Ht. }
  destruct Ht as (d & Ht). rewrite Ht.
  rewrite firstn_app, firstn_all, Nat.sub_diag, firstn_0, app_nil_r.
  unfold_fetch. destruct_matches; repeat split; reflexivity.
Qed.

End MoreFetch.

Section MoreQueue.

Context {X : Collaborators}.
Variable B : Behaviour.

(** X7.  A drain pass on an empty queue returns at once and changes
    nothing; so a second pass right after a pass that returned without
    error does nothing either. *)
Theorem processQueue_on_empty_queue_does_nothing (s : NetworkManager) :
  (request_queue s = [] -> processQueue B s = Returned (Ok tt) s) /\
  (forall s', processQueue B s = Returned (Ok tt) s' ->
              processQueue B s' = Returned (Ok tt) s').
Proof.
  assert (Hempty : forall t, request_queue t = [] ->
                             processQueue B t = Returned (Ok tt) t).
  { intros t Ht. unfold processQueue. cbn [processQueue_loop].
    rewrite Ht. reflexivity. }
  split; [apply Hempty|].
  intros s' Hrun. apply Hempty.
  destruct (processQueue_loop_spec B (S (List.length (request_queue s))) s)
    as (r & s1 & attempted & d & Hrun' & _ & _ & _ & Hr); [lia|].
  unfold processQueue in Hrun. rewrite Hrun in Hrun'.
  inversion Hrun'; subst r s1. exact Hr.
Qed.


End MoreQueue.

Section MoreConfig.

Context {X : Collaborators}.
Variable B : Behaviour.

(** X9.  [updateConfig] never reaches the SSL context nor the request
    queue: a new [ca_bundle_path] is stored in the configuration while the
    SSL context stays the one built at start, whatever the components
    answer. *)
Theorem updateConfig_never_reaches_ssl_context
  (new_config : NetworkConfig) (s : NetworkManager) :
  let s' := snd (updateConfig B new_config s) in
  ssl_context s' = ssl_context s /\
  ca_bundle_path (config s') = ca_bundle_path new_config /\
  request_queue s' = request_queue s.
Proof.
  unfold_update. split_updates; repeat split; reflexivity.
Qed.

(** X10.  [updateConfig] returns the error of the first component that
    refuses its settings, asking the HTTP client, then the resolver, then
    the cache manager, each as it was before the update; the pool never
    makes an update fail. *)
Theorem updateConfig_returns_first_component_error
  (new_config : NetworkConfig) (s : NetworkManager) :
  fst (updateConfig B new_config s) =
  first_error
    [fst (http_updateConfig B (http_options_of new_config) (http_client s));
     fst (dns_updateConfig B (dns_options_of new_config) (dns_resolver s));
     fst (cache_updateConfig B (cache_options_of new_config) (cache_manager s))].
Proof.
  unfold_update. unfold http_options_of, dns_options_of, cache_options_of.
  split_updates; reflexivity.
Qed.

(** X11.  The last measurement wins: adjusting for one measurement and then
    for another leaves the configuration that adjusting for the second alone
    gives; in particular adjusting twice for the same measurement changes
    nothing the second time. *)
Theorem adjust_last_measurement_wins
  (r1 r2 : SpeedTestResult) (s : NetworkManager) :
  config (snd (adjustSettingsBasedOnNetworkConditions B r2
                 (snd (adjustSettingsBasedOnNetworkConditions B r1 s)))) =
  config (snd (adjustSettingsBasedOnNetworkConditions B r2 s)).
Proof.
  unfold adjustSettingsBasedOnNetworkConditions.
  rewrite !updateConfig_config. unfold adjusted_config.
  destruct (download_speed r1 <? 1000000)%Z;
    [|destruct (download_speed r1 <? 10000000)%Z];
    (destruct (download_speed r2 <? 1000000)%Z;
     [|destruct (download_speed r2 <? 10000000)%Z]); reflexivity.
Qed.

(** X12.  The adjustment looks at the download speed alone, and a faster
    download never gives fewer connections per host nor a longer timeout. *)
Theorem adjusted_config_follows_download_speed
  (c : NetworkConfig) (r1 r2 : SpeedTestResult) :
  (download_speed r1 <= download_speed r2)%Z ->
  (max_connections_per_host (adjusted_config c r1) <=
   max_connections_per_host (adjusted_config c r2))%Z /\
  (request_timeout (adjusted_config c r2) <=
   request_timeout (adjusted_config c r1))%Z /\
  (download_speed r1 = download_speed r2 ->
   adjusted_config c r1 = adjusted_config c r2).
Proof.
  intros Hle. unfold adjusted_config.
  destruct (Z.ltb_spec (download_speed r1) 1000000);
    [|destruct (Z.ltb_spec (download_speed r1) 10000000)];
    (destruct (Z.ltb_spec (download_speed r2) 1000000);
     [|destruct (Z.ltb_spec (download_speed r2) 10000000)]);
    cbn; repeat split; intros; try reflexivity; lia.
Qed.

End MoreConfig.

Section MoreRetry.

Context {X : Collaborators}.

(** X13.  What [handleNetworkError] does with retry number [i]: from
    [max_retries] on it returns the error it was given and neither sleeps nor
    changes anything; below [max_retries] it sleeps [ns_per_ms * 2 ^ i]
    nanoseconds and returns, as long as [i <= 44]; from [i = 45] on the wait
    does not fit in 64 bits and the checked arithmetic stops the program
    before any sleep. *)
Theorem handleNetworkError_cases
  (err : anyerror) (i : Z) (s : NetworkManager) :
  (0 <= i)%Z ->
  ((max_retries (config s) <= i)%Z ->
   handleNetworkError err i s = Returned (Err err) s) /\
  ((i < max_retries (config s))%Z -> (i <= 44)%Z ->
   handleNetworkError err i s =
   Returned (Ok tt) (with_trace (trace s ++ [EvSleep (ns_per_ms * 2 ^ i)]) s)) /\
  ((i < max_retries (config s))%Z -> (45 <= i)%Z ->
   handleNetworkError err i s = IntegerOverflow).
Proof.
  intros Hi. split; [|split].
  - apply handleNetworkError_gives_up.
  - intros Hm H44. apply handleNetworkError_sleeps; lia.
  - intros Hm H45. apply handleNetworkError_overflows; assumption.
Qed.

End MoreRetry.

Section MoreMonitor.

Context {X : Collaborators}.
Variable B : Behaviour.
Variable speed_test : HttpClient -> result SpeedTestResult * HttpClient.

Lemma sleeps_app (d1 d2 : list Event) :
  sleeps (d1 ++ d2) = sleeps d1 ++ sleeps d2.
Proof.
  induction d1 as [|e d1 IH]; [reflexivity|].
  destruct e; cbn; rewrite ?IH; reflexivity.
Qed.

Lemma adjusted_config_interval (c : NetworkConfig) (r : SpeedTestResult) :
  network_monitor_interval (adjusted_config c r) = network_monitor_interval c /\
  max_retries (adjusted_config c r) = max_retries c /\
  max_total_connections (adjusted_config c r) = max_total_connections c.
Proof.
  unfold adjusted_config.
  destruct (download_speed r <? 1000000)%Z;
    [|destruct (download_speed r <? 10000000)%Z]; repeat split; reflexivity.
Qed.

(** An update sleeps nowhere. *)
Lemma updateConfig_sleeps (new_config : NetworkConfig) (s : NetworkManager) :
  exists d,
    trace (snd (updateConfig B new_config s)) = trace s ++ d /\ sleeps d = [] /\
    request_queue (snd (updateConfig B new_config s)) = request_queue s.
Proof.
  unfold_update.
  split_updates; (eexists; split; [flatten_trace; reflexivity|split; reflexivity]).
Qed.

(** One turn: the three fields stay, the queue stays, and the turn sleeps
    once, for the interval, exactly when it completes. *)
Lemma monitor_turn_frame (s : NetworkManager) :
  let r := fst (monitor_turn B speed_test s) in
  let s' := snd (monitor_turn B speed_test s) in
  network_monitor_interval (config s') = network_monitor_interval (config s) /\
  max_retries (config s') = max_retries (config s) /\
  max_total_connections (config s') = max_total_connections (config s) /\
  request_queue s' = request_queue s /\
  exists d,
    trace s' = trace s ++ d /\
    sleeps d = match r with
               | Ok _ => [network_monitor_interval (config s)]
               | Err _ => []
               end.
Proof.
  unfold monitor_turn, performSpeedTest, bind.
  destruct (speed_test (http_client s)) as [[m|e] h]; cbn [fst snd].
  - unfold adjustSettingsBasedOnNetworkConditions.
    cbn [config with_http_client].
    set (s1 := with_http_client h s).
    set (c1 := adjusted_config (config s) m).
    pose proof (updateConfig_config B c1 s1) as Hc.
    destruct (updateConfig_sleeps c1 s1) as (d & Ht & Hs & Hq).
    destruct (adjusted_config_interval (config s) m) as (Hi & Hr & Hm).
    fold c1 in Hi, Hr, Hm.
    destruct (updateConfig B c1 s1) as [[u|e] s2]; cbn in Hc, Ht, Hq |- *;
      rewrite Hc; repeat split; try assumption.
    + exists (d ++ [EvSleep (network_monitor_interval c1)]).
      rewrite Ht, sleeps_app, Hs, Hi, app_assoc. split; reflexivity.
    + exists d. split; assumption.
  - cbn. repeat split; try reflexivity.
    exists []. rewrite app_nil_r. split; reflexivity.
Qed.


(** X15.  However many turns the monitor makes, it sleeps once per completed
    turn and always for the interval of the configuration it started with;
    the interval, [max_retries] and [max_total_connections] of the
    configuration and the request queue are never changed by it. *)
Theorem monitor_sleeps_the_initial_interval (n : nat) (s : NetworkManager) :
  let s' := snd (fst (monitor_turns B speed_test n s)) in
  let k := snd (monitor_turns B speed_test n s) in
  sleeps (since s s') = repeat (network_monitor_interval (config s)) k /\
  k <= n /\
  (fst (fst (monitor_turns B speed_test n s)) = Ok tt -> k = n) /\
  network_monitor_interval (config s') = network_monitor_interval (config s) /\
  max_retries (config s') = max_retries (config s) /\
  max_total_connections (config s') = max_total_connections (config s) /\
  request_queue s' = request_queue s.
Proof.
  cbv zeta.
  assert (H : exists d,
    trace (snd (fst (monitor_turns B speed_test n s))) = trace s ++ d /\
    sleeps d = repeat (network_monitor_interval (config s))
                 (snd (monitor_turns B speed_test n s)) /\
    snd (monitor_turns B speed_test n s) <= n /\
    (fst (fst (monitor_turns B speed_test n s)) = Ok tt ->
     snd (monitor_turns B speed_test n s) = n) /\
    network_monitor_interval (config (snd (fst (monitor_turns B speed_test n s))))
      = network_monitor_interval (config s) /\
    max_retries (config (snd (fst (monitor_turns B speed_test n s))))
      = max_retries (config s) /\
    max_total_connections (config (snd (fst (monitor_turns B speed_test n s))))
      = max_total_connections (config s) /\
    request_queue (snd (fst (monitor_turns B speed_test n s))) = request_queue s).
  { revert s. induction n as [|n IH]; intros s.
    - exists []. cbn. rewrite app_nil_r. repeat split; reflexivity.
    - cbn [monitor_turns].
      pose proof (monitor_turn_frame s) as Hturn. cbv zeta in Hturn.
      destruct (monitor_turn B speed_test s) as [[u|e] s1];
        cbn [fst snd] in Hturn;
        destruct Hturn as (Hi & Hr & Hm & Hq & d1 & Ht1 & Hs1).
      + destruct (IH s1) as (d & Ht & Hs & Hk & Hok & Hi' & Hr' & Hm' & Hq').
        destruct (monitor_turns B speed_test n s1) as [[r s2] k].
        cbn [fst snd] in *.
        exists (d1 ++ d). rewrite Ht, Ht1, sleeps_app, Hs1, Hs, Hi, app_assoc.
        repeat split; try congruence; try lia.
        intros Hr2. rewrite (Hok Hr2). reflexivity.
      + cbn [fst snd]. exists d1.
        repeat split; try assumption; try lia. discriminate. }
  destruct H as (d & Ht & Hs & Hk & Hok & Hi & Hr & Hm & Hq).
  rewrite (since_app _ _ _ Ht). repeat split; assumption.
Qed.

End MoreMonitor.

(** * Properties of the auto-update module *)

Arguments AutoUpdate.update_filename : simpl never.
Arguments AutoUpdate.added : simpl never.

Ltac unfold_updater :=
  unfold AutoUpdate.checkForUpdates, AutoUpdate.downloadUpdate,
    AutoUpdate.get_string, AutoUpdate.open, AutoUpdate.call, AutoUpdate.close,
    AutoUpdate.note, AutoUpdate.udefer, AutoUpdate.ubind, AutoUpdate.uret,
    AutoUpdate.ufail; cbn.

(** Splits the goal along the answers of the packages, in the order the
    module asks for them. *)
Ltac split_world :=
  repeat (cbn; match goal with
    | |- context [AutoUpdate.fs_makePath ?E ?p ?w] =>
        destruct (AutoUpdate.fs_makePath E p w) as [[[]|?] ?] eqn:?
    | |- context [AutoUpdate.milliTimestamp ?E ?w] =>
        destruct (AutoUpdate.milliTimestamp E w) as [? ?] eqn:?
    | |- context [AutoUpdate.allocate ?E ?w] =>
        destruct (AutoUpdate.allocate E w) as [[[]|?] ?] eqn:?
    | |- context [AutoUpdate.client_init ?E ?w] =>
        destruct (AutoUpdate.client_init E w) as [[[]|?] ?] eqn:?
    | |- context [AutoUpdate.client_request ?E ?u ?w] =>
        destruct (AutoUpdate.client_request E u w) as [[[]|?] ?] eqn:?
    | |- context [AutoUpdate.headers_append ?E ?k ?v ?w] =>
        destruct (AutoUpdate.headers_append E k v w) as [[[]|?] ?] eqn:?
    | |- context [AutoUpdate.request_send ?E ?w] =>
        destruct (AutoUpdate.request_send E w) as [[?|?] ?] eqn:?
    | |- context [(AutoUpdate.status_code ?r =? 200)%Z] =>
        destruct (Z.eqb_spec (AutoUpdate.status_code r) 200)
    | |- context [AutoUpdate.parser_parse ?E ?b ?w] =>
        destruct (AutoUpdate.parser_parse E b w) as [[?|?] ?] eqn:?
    | |- context [AutoUpdate.object_get ?E ?r ?k] =>
        destruct (AutoUpdate.object_get E r k) eqn:?
    | |- context [AutoUpdate.value_string ?E ?v] =>
        destruct (AutoUpdate.value_string E v) eqn:?
    | |- context [AutoUpdate.fs_createFile ?E ?p ?w] =>
        destruct (AutoUpdate.fs_createFile E p w) as [[[]|?] ?] eqn:?
    | |- context [AutoUpdate.file_writeAll ?E ?b ?w] =>
        destruct (AutoUpdate.file_writeAll E b w) as [[[]|?] ?] eqn:?
    end); cbn.

Section UpdateProperties.

Import AutoUpdate.

Context {T : UpdateTypes}.
Variable E : UpdateBehaviour.

Lemma added_app (s s' : UpdateState) (d : list UEvent) :
  journal s' = journal s ++ d -> added s s' = d.
Proof.
  intros H. unfold added. rewrite H.
  rewrite skipn_app, skipn_all, Nat.sub_diag. reflexivity.
Qed.

Lemma calls_app (p : Call -> bool) (d1 d2 : list UEvent) :
  calls p (d1 ++ d2) = calls p d1 + calls p d2.
Proof. unfold calls. rewrite filter_app, length_app. reflexivity. Qed.

Lemma chunks_app (d1 d2 : list UEvent) :
  chunks (d1 ++ d2) = chunks d1 ++ chunks d2.
Proof.
  induction d1 as [|e d1 IH]; [reflexivity|].
  destruct e; cbn; rewrite ?IH; reflexivity.
Qed.

Ltac explicit_added :=
  repeat (erewrite added_app
            by (cbn; repeat rewrite <- app_assoc; cbn; reflexivity)).

(** X16.  [checkForUpdates] gives back what it took: whenever it returns, a
    result or an error, every client, request, response, parser and document
    it obtained has been released, the latest first.  When a key is missing
    and [.?] meets [null], none of the five is released. *)
Theorem checkForUpdates_gives_back_every_handle (s : UpdateState) :
  let d := added s (snd (checkForUpdates E s)) in
  match fst (checkForUpdates E s) with
  | Done _ => held d [] = Some []
  | NullUnwrapped => held d [] = Some [HRoot; HParser; HResponse; HRequest; HClient]
  | Exited _ => False
  | Faulted => False
  | Stalled => False
  end.
Proof.
  unfold_updater. split_world; explicit_added; reflexivity.
Qed.

(** X17.  If the server never answers 200, [checkForUpdates] always fails
    and never parses a body; once a reply was received the error is
    [ServerError]. *)
Theorem checkForUpdates_fails_without_200 (s : UpdateState) :
  (forall w r w', request_send E w = (Ok r, w') -> status_code r <> 200%Z) ->
  let d := added s (snd (checkForUpdates E s)) in
  calls is_parse d = 0 /\
  exists e, fst (checkForUpdates E s) = Done (Err e) /\
            (In (UOpened HResponse) d -> e = ServerError).
Proof.
  intros Hnever. unfold_updater. split_world; explicit_added; cbn;
    try (exfalso; eapply Hnever; eassumption);
    (split; [reflexivity|]); eexists; (split; [reflexivity|]);
    intros Hin; cbn in Hin;
    try reflexivity; intuition discriminate.
Qed.

(** Replaces the calls on the packages by the answers assumed for them, the
    earliest first. *)
Ltac follow_world :=
  repeat (match goal with
          | H : ?call = (_, _) |- context [?call] => rewrite H
          end; cbn [fst snd]).

(** X18.  [checkForUpdates] returns a result only when the reply to the
    request it sent, after the client, the request and the two headers, has
    status 200 and its body parses to a document that has the four keys,
    each a string; the result carries exactly these four strings, as the
    document gave them. *)
Theorem checkForUpdates_result_comes_from_document
  (s : UpdateState) (u : UpdateResult) :
  fst (checkForUpdates E s) = Done (Ok u) ->
  let w1 := snd (client_init E (world s)) in
  let w2 := snd (client_request E UPDATE_SERVER_URL w1) in
  let w3 := snd (headers_append E "User-Agent" "Aluminum-Browser/1.0" w2) in
  let w4 := snd (headers_append E "Current-Version" CURRENT_VERSION w3) in
  exists reply root v1 v2 v3 v4,
    fst (request_send E w4) = Ok reply /\
    status_code reply = 200%Z /\
    fst (parser_parse E (body reply) (snd (request_send E w4))) = Ok root /\
    object_get E root "version" = Some v1 /\
    value_string E v1 = Ok (version u) /\
    object_get E root "changelog" = Some v2 /\
    value_string E v2 = Ok (changelog u) /\
    object_get E root "download_url" = Some v3 /\
    value_string E v3 = Ok (download_url u) /\
    object_get E root "signature" = Some v4 /\
    value_string E v4 = Ok (signature u).
Proof.
  unfold_updater. split_world; intros H; try discriminate.
  injection H as <-. cbn. follow_world.
  match goal with
  | Hsend : request_send E _ = (Ok ?reply, _),
    Hparse : parser_parse E (body ?reply) _ = (Ok ?root, _) |- _ =>
      exists reply, root
  end.
  do 4 eexists. follow_world. repeat split; try eassumption; reflexivity.
Qed.

Lemma in_calls (p : Call -> bool) (c : Call) (d : list UEvent) :
  In (UCall c) d -> p c = true -> 1 <= calls p d.
Proof.
  intros Hin Hp. unfold calls.
  assert (Hf : In (UCall c) (filter (is_call p) d)).
  { apply filter_In. split; [exact Hin|exact Hp]. }
  destruct (filter (is_call p) d); [contradiction|cbn; lia].
Qed.

Lemma reading_calls (p : Call -> bool) (d : list UEvent) :
  forallb reading d = true -> p Read = false -> calls p d = 0.
Proof.
  intros Hd Hp. induction d as [|e d IH]; [reflexivity|].
  cbn in Hd. apply andb_prop in Hd. destruct Hd as [He Hd].
  specialize (IH Hd). unfold calls in *.
  destruct e as [c| | |]; try discriminate; cbn.
  - destruct c; try discriminate. rewrite Hp. exact IH.
  - exact IH.
Qed.

Lemma reading_held (d : list UEvent) (stack : list Handle) :
  forallb reading d = true -> held d stack = Some stack.
Proof.
  intros Hd. induction d as [|e d IH]; [reflexivity|].
  cbn in Hd. apply andb_prop in Hd. destruct Hd as [He Hd].
  destruct e as [c| | |]; try discriminate; cbn; exact (IH Hd).
Qed.

Lemma held_app (d1 d2 : list UEvent) (stack stack' : list Handle) :
  held d1 stack = Some stack' -> held (d1 ++ d2) stack = held d2 stack'.
Proof.
  revert stack. induction d1 as [|e d1 IH]; intros stack H.
  - cbn in H. injection H as ->. reflexivity.
  - destruct e as [c|h|h|b]; cbn in H |- *; try (apply IH; exact H).
    destruct stack as [|h' stack]; [discriminate|].
    destruct h, h'; try discriminate; apply IH; exact H.
Qed.

Lemma hash_file_eq (reads : nat) (hasher : Hasher) (s : UpdateState) :
  hash_file E (S reads) hasher s =
  match file_read E (world s) with
  | (Ok chunk, w) =>
      let s1 := {| world := w; journal := journal s ++ [UCall Read] |} in
      match chunk with
      | EmptyString => (Done (Ok hasher), s1)
      | _ => hash_file E reads (hash_update E hasher chunk) (note (UChunk chunk) s1)
      end
  | (Err e, w) =>
      (Done (Err e), {| world := w; journal := journal s ++ [UCall Read] |})
  end.
Proof.
  cbn [hash_file]. unfold ubind, call, uret.
  destruct (file_read E (world s)) as [[[|a rest]|e] w]; reflexivity.
Qed.

(** The read loop: it only reads; what it returns is the hasher fed with the
    bytes read, in order; an error is an error of a read. *)
Lemma hash_file_spec (reads : nat) :
  forall (hasher : Hasher) (s : UpdateState),
  exists d,
    journal (snd (hash_file E reads hasher s)) = journal s ++ d /\
    forallb reading d = true /\
    match fst (hash_file E reads hasher s) with
    | Done (Ok h) => h = fold_left (hash_update E) (chunks d) hasher
    | Done (Err e) => exists w, fst (file_read E w) = Err e
    | Stalled => True
    | Exited _ => False
    | NullUnwrapped => False
    | Faulted => False
    end.
Proof.
  induction reads as [|reads IH]; intros hasher s.
  - exists []. cbn. rewrite app_nil_r. repeat split.
  - rewrite hash_file_eq.
    destruct (file_read E (world s)) as [[chunk|e] w] eqn:Hread.
    + destruct chunk as [|a rest].
      * exists [UCall Read]. cbn. repeat split.
      * cbv zeta.
        match goal with
        | |- context [hash_file E reads ?h ?s1] =>
            destruct (IH h s1) as (d & Hj & Hr & Ho);
            destruct (hash_file E reads h s1) as [o s2]
        end.
        cbn [fst snd] in *.
        exists (UCall Read :: UChunk (String a rest) :: d).
        split; [|split].
        { rewrite Hj. unfold note. cbn. rewrite <- !app_assoc. reflexivity. }
        { cbn. exact Hr. }
        destruct o as [[h|e]|code| | |]; cbn; exact Ho.
    + exists [UCall Read]. cbn. repeat split.
      exists (world s). rewrite Hread. reflexivity.
Qed.

(** The journal of a [verifyUpdate] that got past the read loop: the reads
    [d], then the allocation when the reads succeeded, then the close. *)
Lemma verified_journal (path : string) (d tail : list UEvent) :
  forallb reading d = true ->
  tail = [UClosed HFile] \/ tail = [UCall AllocPrint; UClosed HFile] ->
  (forall p, p Read = false -> p AllocPrint = false ->
             calls p (UOpened HFile :: d ++ tail) = 0) /\
  held (UCall (OpenFile path) :: UOpened HFile :: d ++ tail) [] = Some [] /\
  digest_of E (UOpened HFile :: d ++ tail) = digest_of E d.
Proof.
  intros Hr Htail. split; [|split].
  - intros p Hp Ha. unfold calls. cbn. rewrite filter_app, length_app.
    fold (calls p d). rewrite (reading_calls p d Hr Hp).
    destruct Htail as [-> | ->]; cbn; rewrite ?Ha; reflexivity.
  - cbn. rewrite (held_app d tail [HFile] [HFile] (reading_held d [HFile] Hr)).
    destruct Htail as [-> | ->]; reflexivity.
  - unfold digest_of. cbn. rewrite chunks_app.
    destruct Htail as [-> | ->]; cbn; rewrite app_nil_r; reflexivity.
Qed.

(** What [verifyUpdate] adds to the journal and how it ends. *)
Lemma verifyUpdate_summary (reads : nat) (path expected : string) (s : UpdateState) :
  exists d,
    journal (snd (verifyUpdate E reads path expected s)) =
      journal s ++ UCall (OpenFile path) :: d /\
    (forall p, p Read = false -> p AllocPrint = false -> calls p d = 0) /\
    match fst (verifyUpdate E reads path expected s) with
    | Done (Ok _) =>
        digest_of E d = expected /\ held (UCall (OpenFile path) :: d) [] = Some []
    | Done (Err e) =>
        held (UCall (OpenFile path) :: d) [] = Some [] /\
        ((e = VerificationFailed /\ digest_of E d <> expected) \/
         exists w, fst (fs_openFile E path w) = Err e \/
                   fst (file_read E w) = Err e \/
                   fst (allocate E w) = Err e)
    | Stalled => held (UCall (OpenFile path) :: d) [] = Some [HFile]
    | Exited _ => False
    | NullUnwrapped => False
    | Faulted => False
    end.
Proof.
  destruct (verifyUpdate E reads path expected s) as [o s'] eqn:Hv.
  cbn [fst snd].
  unfold verifyUpdate, ubind, open, udefer in Hv.
  destruct (fs_openFile E path (world s)) as [[[]|e] w] eqn:Hopen.
  - match type of Hv with
    | context [hash_file E reads ?h ?s1] =>
        destruct (hash_file_spec reads h s1) as (d & Hj & Hr & Ho);
        remember (hash_file E reads h s1) as res eqn:Hres;
        destruct res as [o1 s2]
    end.
    clear Hres. cbn [fst snd journal] in *.
    destruct (verified_journal path d [UClosed HFile] Hr (or_introl eq_refl))
      as (Hcalls1 & Hheld1 & Hdigest1).
    destruct (verified_journal path d [UCall AllocPrint; UClosed HFile] Hr
                (or_intror eq_refl)) as (Hcalls2 & Hheld2 & Hdigest2).
    destruct o1 as [[h|e]|code| | |]; try contradiction.
    + subst h. fold (digest_of E d) in Hv. unfold call in Hv.
      destruct (allocate E (world s2)) as [[[]|e] w2] eqn:Halloc.
      * destruct (String.eqb_spec (digest_of E d) expected) as [Heq|Hne];
          cbn in Hv; injection Hv as <- <-;
          exists (UOpened HFile :: d ++ [UCall AllocPrint; UClosed HFile]);
          (split; [cbn; rewrite Hj; repeat rewrite <- app_assoc; reflexivity|]);
          (split; [exact Hcalls2|]); rewrite Hdigest2.
        -- split; [exact Heq|exact Hheld2].
        -- split; [exact Hheld2|]. left. split; [reflexivity|exact Hne].
      * cbn in Hv. injection Hv as <- <-.
        exists (UOpened HFile :: d ++ [UCall AllocPrint; UClosed HFile]).
        split; [cbn; rewrite Hj; repeat rewrite <- app_assoc; reflexivity|].
        split; [exact Hcalls2|]. split; [exact Hheld2|].
        right. exists (world s2). right. right. rewrite Halloc. reflexivity.
    + cbn in Hv. injection Hv as <- <-.
      exists (UOpened HFile :: d ++ [UClosed HFile]).
      split; [cbn; rewrite Hj; repeat rewrite <- app_assoc; reflexivity|].
      split; [exact Hcalls1|]. split; [exact Hheld1|].
      right. destruct Ho as (w' & Hw). exists w'. right. left. exact Hw.
    + cbn in Hv. injection Hv as <- <-.
      exists (UOpened HFile :: d).
      split; [cbn; rewrite Hj; repeat rewrite <- app_assoc; reflexivity|].
      split; [intros p Hp _; unfold calls; cbn;
              fold (calls p d); exact (reading_calls p d Hr Hp)|].
      cbn. exact (reading_held d [HFile] Hr).
  - cbn in Hv. injection Hv as <- <-. exists []. cbn.
    split; [reflexivity|]. split; [reflexivity|].
    split; [reflexivity|].
    right. exists (world s). left. rewrite Hopen. reflexivity.
Qed.

Lemma calls_cons (p : Call -> bool) (c : Call) (d : list UEvent) :
  calls p (UCall c :: d) = (if p c then 1 else 0) + calls p d.
Proof. unfold calls. cbn. destruct (p c); reflexivity. Qed.

(** X19.  [verifyUpdate] returns without error only when the hex digest of
    the bytes it read, in the order it read them, is the expected signature.
    An error is [VerificationFailed] for a digest that differs, or else an
    error of opening the file, of reading it, or of the allocation of the
    printed digest.  Whenever it returns, the file has been closed. *)
Theorem verifyUpdate_accepts_only_the_expected_digest
  (reads : nat) (path expected : string) (s : UpdateState) :
  let d := added s (snd (verifyUpdate E reads path expected s)) in
  match fst (verifyUpdate E reads path expected s) with
  | Done (Ok _) => digest_of E d = expected /\ held d [] = Some []
  | Done (Err e) =>
      held d [] = Some [] /\
      ((e = VerificationFailed /\ digest_of E d <> expected) \/
       exists w, fst (fs_openFile E path w) = Err e \/
                 fst (file_read E w) = Err e \/
                 fst (allocate E w) = Err e)
  | Stalled => True
  | Exited _ => False
  | NullUnwrapped => False
  | Faulted => False
  end.
Proof.
  cbv zeta.
  destruct (verifyUpdate_summary reads path expected s) as (d & Hj & _ & Ho).
  rewrite (added_app _ _ _ Hj).
  destruct (fst (verifyUpdate E reads path expected s)) as [[u|e]|code| | |];
    try exact Ho; exact I.
Qed.

(** What [downloadUpdate] adds to the journal and how it ends. *)
Lemma downloadUpdate_summary (url : string) (s : UpdateState) :
  exists d,
    journal (snd (downloadUpdate E url s)) = journal s ++ d /\
    chunks d = [] /\
    calls is_install d = 0 /\ calls is_delete d = 0 /\ calls is_exit d = 0 /\
    calls is_check_sleep d = 0 /\ calls is_open_file d = 0 /\
    calls is_makepath d = 1 /\
    match fst (downloadUpdate E url s) with
    | Done _ => True
    | Exited _ => False
    | NullUnwrapped => False
    | Faulted => False
    | Stalled => False
    end.
Proof.
  unfold_updater. split_world;
    (eexists; split; [repeat rewrite <- app_assoc; cbn; reflexivity|]);
    cbn; repeat split.
Qed.

(** X20.  [downloadUpdate] returns without error only on one path: the
    directory was made, the name allocated, and the reply to the request it
    sent has status 200; it then created one file, named
    [./temp_downloads/update_<timestamp>.zip] for the timestamp it took,
    wrote the body of that reply to it once, and gave back the file, the
    response, the request and the client, in this order.  When it returns an
    error it has given back what it obtained as well.  If the server never
    answers 200 it creates no file and fails, with [DownloadFailed] once a
    reply was received.  Nothing is said of the slice it returns. *)
Theorem downloadUpdate_writes_one_file_from_a_200_reply
  (url : string) (s : UpdateState) :
  let d := added s (snd (downloadUpdate E url s)) in
  match fst (downloadUpdate E url s) with
  | Done (Ok _) =>
      let w1 := snd (fs_makePath E TEMP_DOWNLOAD_DIR (world s)) in
      let timestamp := fst (milliTimestamp E w1) in
      let w2 := snd (milliTimestamp E w1) in
      let w3 := snd (allocate E w2) in
      let w4 := snd (client_init E w3) in
      let w5 := snd (client_request E url w4) in
      exists reply,
        fst (request_send E w5) = Ok reply /\
        status_code reply = 200%Z /\
        d = [UCall (MakePath TEMP_DOWNLOAD_DIR); UCall AllocPrint;
             UCall ClientInit; UOpened HClient;
             UCall (ClientRequest url); UOpened HRequest;
             UCall RequestSend; UOpened HResponse;
             UCall (CreateFile (update_filename timestamp)); UOpened HFile;
             UCall (WriteAll (body reply));
             UClosed HFile; UClosed HResponse; UClosed HRequest; UClosed HClient]
  | Done (Err e) => held d [] = Some []
  | Exited _ => False
  | NullUnwrapped => False
  | Faulted => False
  | Stalled => False
  end /\
  ((forall w r w', request_send E w = (Ok r, w') -> status_code r <> 200%Z) ->
   calls is_create d = 0 /\
   exists e, fst (downloadUpdate E url s) = Done (Err e) /\
             (In (UOpened HResponse) d -> e = DownloadFailed)).
Proof.
  cbv zeta. split.
  - unfold_updater. split_world; explicit_added; try reflexivity.
    follow_world.
    match goal with
    | Hsend : request_send E _ = (Ok ?reply, _) |- _ => exists reply
    end.
    follow_world. repeat split; try eassumption; reflexivity.
  - intros Hnever. unfold_updater. split_world; explicit_added; cbn;
      try (exfalso; eapply Hnever; eassumption);
      (split; [reflexivity|]); eexists; (split; [reflexivity|]);
      intros Hin; cbn in Hin;
      try reflexivity; intuition discriminate.
Qed.

(** The ways [performUpdate] can go, with what each adds to the journal:
    [d1] is the part of the download, [d2] the part of the verification
    after the file was opened. *)
Lemma performUpdate_cases (reads : nat) (u : UpdateResult) (s : UpdateState) :
  let o := fst (performUpdate E reads u s) in
  let s' := snd (performUpdate E reads u s) in
  let s1 := snd (downloadUpdate E (download_url u) s) in
  exists d1,
    chunks d1 = [] /\
    calls is_install d1 = 0 /\ calls is_delete d1 = 0 /\ calls is_exit d1 = 0 /\
    calls is_check_sleep d1 = 0 /\ calls is_open_file d1 = 0 /\
    calls is_makepath d1 = 1 /\
    ((exists e, o = Done (Err e) /\ journal s' = journal s ++ d1) \/
     (o = Faulted /\ journal s' = journal s ++ d1) \/
     exists was path d2,
       fst (downloadUpdate E (download_url u) s) = Done (Ok (Freed was)) /\
       read_freed E was (world s1) = Some path /\
       (forall p, p Read = false -> p AllocPrint = false -> calls p d2 = 0) /\
       ((o = Exited 0 /\
         digest_of E d2 = signature u /\
         journal s' = journal s ++ d1 ++ UCall (OpenFile path) :: d2 ++
                      [UCall Install; UCall (Sleep (5 * ns_per_s));
                       UCall (Exit 0)]) \/
        (exists e path', o = Done (Err e) /\
         journal s' = journal s ++ d1 ++ UCall (OpenFile path) :: d2 ++
                      [UCall (DeleteFile path')]) \/
        ((o = Stalled \/ o = Faulted) /\
         journal s' = journal s ++ d1 ++ UCall (OpenFile path) :: d2))).
Proof.
  cbv zeta.
  destruct (performUpdate E reads u s) as [o s'] eqn:Hp. cbn [fst snd].
  unfold performUpdate, ubind, udefer_call in Hp.
  destruct (downloadUpdate_summary (download_url u) s)
    as (d1 & Hj1 & Hc & Hi & Hd & He & Hs & Hof & Hm & Ho1).
  remember (downloadUpdate E (download_url u) s) as res eqn:Hres.
  destruct res as [o1 s1]. clear Hres. cbn [fst snd] in *.
  exists d1. repeat (split; [assumption|]).
  destruct o1 as [[[was]|e]|code| | |]; try contradiction.
  - unfold through in Hp at 1.
    destruct (read_freed E was (world s1)) as [path|] eqn:Hread.
    + right. right.
      destruct (verifyUpdate_summary reads path (signature u) s1)
        as (d2 & Hj2 & Hc2 & Ho2).
      remember (verifyUpdate E reads path (signature u) s1) as res eqn:Hres.
      destruct res as [o2 s2]. clear Hres. cbn [fst snd] in *.
      exists was, path, d2. repeat (split; [assumption || reflexivity|]).
      destruct o2 as [[[]|e]|code| | |]; try contradiction.
      * left. unfold installUpdate, restartApplication, note in Hp. cbn in Hp.
        injection Hp as <- <-. destruct Ho2 as (Hdig & _).
        repeat split; try assumption.
        cbn. rewrite Hj2, Hj1. repeat rewrite <- app_assoc. cbn.
        repeat rewrite <- app_assoc. reflexivity.
      * unfold delete_quietly, ubind, through in Hp.
        destruct (read_freed E was (world s2)) as [path'|] eqn:Hread'.
        -- right. left. cbn in Hp. injection Hp as <- <-.
           exists e, path'. split; [reflexivity|].
           cbn. rewrite Hj2, Hj1. repeat rewrite <- app_assoc. cbn.
           repeat rewrite <- app_assoc. reflexivity.
        -- right. right. cbn in Hp. injection Hp as <- <-.
           split; [right; reflexivity|].
           rewrite Hj2, Hj1. repeat rewrite <- app_assoc. reflexivity.
      * right. right. cbn in Hp. injection Hp as <- <-.
        split; [left; reflexivity|].
        rewrite Hj2, Hj1. repeat rewrite <- app_assoc. reflexivity.
    + right. left. cbn in Hp. injection Hp as <- <-.
      split; [reflexivity|assumption].
  - left. cbn in Hp. injection Hp as <- <-. exists e. split; [reflexivity|assumption].
Qed.

(** X21.  [performUpdate] never returns normally.  The process exits, with
    code 0 and after one installation, only when the hex digest of the bytes
    [verifyUpdate] read is the signature of the update; the one file it
    opened for that is named by what was read through the slice
    [downloadUpdate] returned, which [downloadUpdate] had freed before; and
    nothing has been deleted then.  In every other case nothing was
    installed and the process did not exit. *)
Theorem performUpdate_exits_only_after_a_matching_digest
  (reads : nat) (u : UpdateResult) (s : UpdateState) :
  let d := added s (snd (performUpdate E reads u s)) in
  match fst (performUpdate E reads u s) with
  | Exited code =>
      code = 0%Z /\ digest_of E d = signature u /\
      calls is_install d = 1 /\ calls is_delete d = 0 /\
      calls is_open_file d = 1 /\
      exists was path,
        fst (downloadUpdate E (download_url u) s) = Done (Ok (Freed was)) /\
        read_freed E was (world (snd (downloadUpdate E (download_url u) s))) =
          Some path /\
        In (UCall (OpenFile path)) d
  | Done (Ok _) => False
  | Done (Err _) => calls is_install d = 0 /\ calls is_exit d = 0
  | NullUnwrapped => False
  | Faulted => calls is_install d = 0 /\ calls is_exit d = 0
  | Stalled => calls is_install d = 0 /\ calls is_exit d = 0
  end.
Proof.
  cbv zeta.
  destruct (performUpdate_cases reads u s)
    as (d1 & Hc & Hi & Hd & He & Hs & Hof & Hm & Hcases).
  cbv zeta in Hcases.
  destruct Hcases as [(e & Ho & Hj)|[(Ho & Hj)|
    (was & path & d2 & Hdl & Hread & Hc2 & Hcases)]].
  - rewrite Ho, (added_app _ _ _ Hj). split; assumption.
  - rewrite Ho, (added_app _ _ _ Hj). split; assumption.
  - destruct Hcases as [(Ho & Hdig & Hj)|[(e & path' & Ho & Hj)|(Ho & Hj)]].
    + rewrite Ho, (added_app _ _ _ Hj). split; [reflexivity|]. split.
      { unfold digest_of in *. rewrite chunks_app, Hc. cbn.
        rewrite chunks_app. cbn. rewrite app_nil_r. exact Hdig. }
      rewrite !calls_app, !calls_cons, !calls_app, Hi, Hd, Hof.
      rewrite (Hc2 is_install eq_refl eq_refl), (Hc2 is_delete eq_refl eq_refl),
        (Hc2 is_open_file eq_refl eq_refl). cbn.
      repeat (split; [reflexivity|]).
      exists was, path. split; [exact Hdl|]. split; [exact Hread|].
      apply in_or_app. right. left. reflexivity.
    + rewrite Ho, (added_app _ _ _ Hj).
      rewrite !calls_app, !calls_cons, !calls_app, Hi, He.
      rewrite (Hc2 is_install eq_refl eq_refl), (Hc2 is_exit eq_refl eq_refl). cbn.
      split; reflexivity.
    + assert (Hcount : calls is_install (d1 ++ UCall (OpenFile path) :: d2) = 0 /\
                       calls is_exit (d1 ++ UCall (OpenFile path) :: d2) = 0).
      { rewrite !calls_app, !calls_cons, Hi, He.
        rewrite (Hc2 is_install eq_refl eq_refl), (Hc2 is_exit eq_refl eq_refl).
        split; reflexivity. }
      destruct Ho as [Ho|Ho]; rewrite Ho, (added_app _ _ _ Hj); exact Hcount.
Qed.




End UpdateProperties.

(** * The further properties on the concrete worlds *)

Section MoreConcrete.

Import Demo DemoMonitor.

Local Open Scope string_scope.

Lemma fetch_without_cache_skips_lookup_witness :
  let d := since after_first (snd (fetch behaviour page_a no_cache after_first)) in
  Demo.lookup page_a (snd (cache_manager after_first)) = Some empty_response /\
  count is_cache_get d = 0 /\
  nth_error d 1 = Some (EvResolve page_a).
Proof.
  split; [reflexivity|].
  destruct (fetch_without_cache_skips_lookup behaviour page_a no_cache
              after_first eq_refl) as [H0 H1].
  split; [exact H0|exact (H1 page_a eq_refl)].
Defined.

Lemma fetch_failed_resolution_acquires_nothing_witness :
  let r := fetch behaviour down default_options start in
  fst r = Err "TemporaryNameServerFailure" /\
  count is_acquire (since start (snd r)) = 0.
Proof.
  destruct (fetch_failed_resolution_acquires_nothing behaviour down down
              default_options start "TemporaryNameServerFailure"
              (fun _ => eq_refl) eq_refl eq_refl) as (H0 & H1 & _).
  split; [exact H0|exact H1].
Defined.

Lemma fetch_failed_store_loses_the_response_witness :
  let r := fetch behaviour unstorable default_options start in
  fst r = Err "OutOfMemory" /\
  In (EvSend undefined tt) (since start (snd r)) /\
  last (since start (snd r)) (EvFetch unstorable default_options)
  = EvRelease undefined.
Proof.
  exact (fetch_failed_store_loses_the_response behaviour unstorable unstorable
           "93.184.216.34" default_options start tt empty_response "OutOfMemory"
           (fun _ => eq_refl) eq_refl eq_refl eq_refl eq_refl eq_refl eq_refl).
Defined.

Lemma fetch_failed_lookup_is_not_a_miss_witness :
  let r := fetch behaviour_cache_down page_a default_options start in
  fst r = Err "CacheCorrupted" /\
  since start (snd r) = [EvFetch page_a default_options; EvCacheGet page_a].
Proof.
  destruct (fetch_failed_lookup_is_not_a_miss behaviour_cache_down page_a
              default_options start "CacheCorrupted" eq_refl eq_refl)
    as (H0 & H1 & _).
  split; [exact H0|exact H1].
Defined.

Lemma processQueue_on_empty_queue_does_nothing_witness :
  processQueue behaviour start = Returned (Ok tt) start /\
  processQueue behaviour drained_a_b = Returned (Ok tt) drained_a_b.
Proof.
  split.
  - apply (proj1 (processQueue_on_empty_queue_does_nothing behaviour start)).
    reflexivity.
  - apply (proj2 (processQueue_on_empty_queue_does_nothing behaviour queued_a_b)).
    vm_compute. reflexivity.
Defined.


Lemma adjusted_config_follows_download_speed_witness :
  (max_connections_per_host (adjusted_config config0 slow_link) <=
   max_connections_per_host (adjusted_config config0 fast_link))%Z /\
  (request_timeout (adjusted_config config0 fast_link) <=
   request_timeout (adjusted_config config0 slow_link))%Z.
Proof.
  destruct (adjusted_config_follows_download_speed config0 slow_link fast_link
              ltac:(cbn; lia)) as (H0 & H1 & _).
  split; [exact H0|exact H1].
Defined.

Lemma handleNetworkError_cases_witness :
  handleNetworkError "ConnectionTimedOut" 3 start
    = Returned (Err "ConnectionTimedOut") start /\
  handleNetworkError "ConnectionTimedOut" 2 start
    = Returned (Ok tt) (with_trace [EvSleep 4000000] start) /\
  handleNetworkError "ConnectionTimedOut" 45 patient = IntegerOverflow.
Proof.
  split; [|split].
  - apply (proj1 (handleNetworkError_cases "ConnectionTimedOut" 3 start
                    ltac:(lia))). cbn. lia.
  - apply (proj1 (proj2 (handleNetworkError_cases "ConnectionTimedOut" 2 start
                           ltac:(lia)))); cbn; lia.
  - apply (proj2 (proj2 (handleNetworkError_cases "ConnectionTimedOut" 45 patient
                           ltac:(lia)))); cbn; lia.
Defined.

Lemma monitor_sleeps_the_initial_interval_witness :
  let out := monitor_turns behaviour speed_test 5 start in
  fst (fst out) = Err "SpeedTestFailed" /\
  snd out = 1 /\
  sleeps (since start (snd (fst out))) = [60000000000%Z].
Proof.
  split; [reflexivity|]. split; [reflexivity|].
  exact (proj1 (monitor_sleeps_the_initial_interval behaviour speed_test 5 start)).
Defined.

End MoreConcrete.

Section UpdateConcrete.

Import AutoUpdate DemoUpdate.

Local Open Scope string_scope.

Lemma checkForUpdates_fails_without_200_witness :
  let r := checkForUpdates behaviour_down good in
  calls is_parse (added good (snd r)) = 0 /\
  fst r = Done (Err ServerError).
Proof.
  destruct (checkForUpdates_fails_without_200 behaviour_down good) as (H0 & _).
  - intros w r w' H. injection H as <- _. cbn. discriminate.
  - split; [exact H0|reflexivity].
Defined.

Lemma checkForUpdates_result_comes_from_document_witness :
  fst (checkForUpdates behaviour good) = Done (Ok update_1_2_4) /\
  exists reply root v1 v2 v3 v4,
    fst (request_send behaviour (world good)) = Ok reply /\
    status_code reply = 200%Z /\
    fst (parser_parse behaviour (body reply) (world good)) = Ok root /\
    object_get behaviour root "version" = Some v1 /\
    value_string behaviour v1 = Ok "1.2.4" /\
    object_get behaviour root "changelog" = Some v2 /\
    value_string behaviour v2 = Ok "Fixes" /\
    object_get behaviour root "download_url" = Some v3 /\
    value_string behaviour v3 = Ok "https://www.Aluminum.com/updates/1.2.4.zip" /\
    object_get behaviour root "signature" = Some v4 /\
    value_string behaviour v4 = Ok "abcdef".
Proof.
  split; [reflexivity|].
  exact (checkForUpdates_result_comes_from_document behaviour good update_1_2_4
           eq_refl).
Defined.

Lemma downloadUpdate_writes_one_file_from_a_200_reply_witness :
  let r := downloadUpdate behaviour_down "https://www.Aluminum.com/updates/1.2.4.zip"
             good in
  calls is_create (added good (snd r)) = 0 /\
  fst r = Done (Err DownloadFailed).
Proof.
  destruct (proj2 (downloadUpdate_writes_one_file_from_a_200_reply behaviour_down
                     "https://www.Aluminum.com/updates/1.2.4.zip" good))
    as (H0 & _).
  - intros w r w' H. injection H as <- _. cbn. discriminate.
  - split; [exact H0|reflexivity].
Defined.

(** Where freed memory is unmapped, the update stops at the first use of
    the name [downloadUpdate] returned: the file was downloaded, and it is
    neither verified nor deleted. *)
Lemma performUpdate_faults_on_the_freed_name :
  let r := performUpdate behaviour_unmapped 5 update_1_2_4 good in
  fst r = Faulted /\
  calls is_create (added good (snd r)) = 1 /\
  calls is_open_file (added good (snd r)) = 0 /\
  calls is_delete (added good (snd r)) = 0.
Proof. vm_compute. repeat split. Qed.

(** Where freed memory still reads as it was, a file whose digest is the
    signature is installed and the process exits. *)
Lemma performUpdate_installs_the_good_file :
  let r := performUpdate behaviour 5 update_1_2_4 good in
  fst r = Exited 0 /\
  calls is_install (added good (snd r)) = 1.
Proof. vm_compute. repeat split. Qed.


End UpdateConcrete.
